(** * LegalRAG search page: a shallow embedding of the chat component

    The development follows [frontend/src/components/SearchPage.tsx] (the
    [handleSubmit] and [toggleCitations] handlers and the message bubble of the
    JSX), the [FixedSearchBar] form it shares its handler with, and the
    [generation.providers] table of the configuration file.

    Conventions.
    - A JavaScript string is a [string]: a sequence of code units below 256.
      The delimiters the component splits on (['.'] and [',']) and every
      literal of the source are ASCII.
    - React state is a record; an event handler is a function from the state
      it observes to the state after its updates are applied.  Every event is
      handled against the latest render, as React does for form and click
      events.
    - [Date.now()] and [Math.random()] are readings of a [World] that every
      handler threads through; an exception is a [Thrown] outcome. *)

From Stdlib Require Import List String Ascii Bool ZArith Lia.
From Stdlib Require Import DecimalString Sorting.Sorted Sorting.Permutation.
Import ListNotations.
Local Open Scope string_scope.
Local Open Scope list_scope.

(** ** JavaScript string primitives used by the component *)

Module Js.

(** [String.prototype.split] with a one-character separator: the pieces
    between the occurrences of the separator, in order.  The result is never
    the empty array: [''.split('.')] is [['']]. *)
Fixpoint split (sep : ascii) (s : string) : list string :=
  match s with
  | EmptyString => [EmptyString]
  | String c rest =>
      if Ascii.eqb c sep then EmptyString :: split sep rest
      else match split sep rest with
           | piece :: pieces => String c piece :: pieces
           | [] => [String c EmptyString]
           end
  end.

(** Indexing an array: [a[i]] is [undefined] (here [None]) out of range. *)
Definition index {A : Type} (a : list A) (i : nat) : option A := nth_error a i.

(** Truthiness of a string-or-undefined value: only the empty string and
    [undefined]/[null] are falsy. *)
Definition truthy (v : option string) : bool :=
  match v with
  | Some EmptyString | None => false
  | Some (String _ _) => true
  end.

(** [v || d] where [v] is a string or [undefined] and [d] a string. *)
Definition or_else (v : option string) (d : string) : string :=
  match v with
  | Some (String c r) => String c r
  | Some EmptyString | None => d
  end.

(** The code units below 256 that ECMAScript's [WhiteSpace] and
    [LineTerminator] productions contain: TAB, LF, VT, FF, CR, SP, NBSP. *)
Definition isWhiteSpace (c : ascii) : bool :=
  match nat_of_ascii c with
  | 9 | 10 | 11 | 12 | 13 | 32 | 160 => true
  | _ => false
  end.

Fixpoint trimStart (s : string) : string :=
  match s with
  | EmptyString => EmptyString
  | String c rest => if isWhiteSpace c then trimStart rest else s
  end.

Fixpoint trimEnd (s : string) : string :=
  match s with
  | EmptyString => EmptyString
  | String c rest =>
      match trimEnd rest with
      | EmptyString => if isWhiteSpace c then EmptyString else String c EmptyString
      | kept => String c kept
      end
  end.

(** [String.prototype.trim]. *)
Definition trim (s : string) : string := trimEnd (trimStart s).

(** [!s] for a string [s]. *)
Definition not_ (s : string) : bool := negb (truthy (Some s)).

(** [Number.prototype.toString] on an integer: its decimal numeral. *)
Definition toString (n : Z) : string := NilZero.string_of_int (Z.to_int n).

(** [Array.prototype.includes] on an array of strings. *)
Definition includes (a : list string) (x : string) : bool :=
  existsb (String.eqb x) a.

(** [Array.prototype.slice(0, -1)]: all but the last element. *)
Definition slice_0_m1 {A : Type} (a : list A) : list A := removelast a.

End Js.

(** ** The world a handler runs in *)

(** Successive results of [Date.now()] and of
    [Math.random().toString(36).substr(2, 9)]. *)
Record World := {
  clock : nat -> Z;
  entropy : nat -> string
}.

Inductive Exn :=
| NetworkError                (* fetch() rejected *)
| Error (message : string)    (* throw new Error(...) *)
| SyntaxError                 (* response.json() rejected *)
| TypeError.                  (* property read on undefined *)

Inductive Outcome (A : Type) :=
| Returned (a : A)
| Thrown (e : Exn).
Arguments Returned {A} a.
Arguments Thrown {A} e.

(** Computations that read the world and may throw. *)
Definition M (A : Type) : Type := World -> Outcome A * World.

Definition ret {A} (a : A) : M A := fun w => (Returned a, w).

Definition bind {A B} (m : M A) (k : A -> M B) : M B :=
  fun w => match m w with
           | (Returned a, w') => k a w'
           | (Thrown e, w') => (Thrown e, w')
           end.

Definition throw {A} (e : Exn) : M A := fun w => (Thrown e, w).

(** [try { body } catch (error) { handler }]. *)
Definition try_catch {A} (body : M A) (handler : Exn -> M A) : M A :=
  fun w => match body w with
           | (Returned a, w') => (Returned a, w')
           | (Thrown e, w') => handler e w'
           end.

Notation "x <- m ;; k" := (bind m (fun x => k))
  (at level 61, m at next level, right associativity).

Definition Date_now : M Z :=
  fun w => (Returned (clock w 0),
            {| clock := fun n => clock w (S n); entropy := entropy w |}).

Definition Math_random_suffix : M string :=
  fun w => (Returned (entropy w 0),
            {| clock := clock w; entropy := fun n => entropy w (S n) |}).

(** [Array.prototype.map] with a callback that reads the world: elements are
    visited left to right. *)
Fixpoint mapM {A B} (f : A -> M B) (l : list A) : M (list B) :=
  match l with
  | [] => ret []
  | x :: rest => y <- f x ;; ys <- mapM f rest ;; ret (y :: ys)
  end.

(** ** Data model of the component *)

Inductive Role := user | assistant.

Module Citation.
(** [interface Citation]. *)
Record t := {
  id : string;
  title : string;
  court : string;
  year : string;
  url : string;
  citation : string;
  source : string
}.
End Citation.

Module Message.
(** [interface Message]; an optional property that is not set is [None]. *)
Record t := {
  id : string;
  role : Role;
  content : string;
  citations : option (list Citation.t);
  loading : option bool
}.

(** [message.loading] used as a condition. *)
Definition is_loading (m : t) : bool :=
  match loading m with Some true => true | _ => false end.
End Message.

(** ** What the backend sends *)

Module Backend.

(** Bodies are taken at the type the handler gives them: an answer string
    and an array of objects with a [citation] and a [source] string.

    One element of [data.data.citations].  The callback reads [citation] and
    [source]; [others] stands for whatever further properties the object has. *)
Record citation_t := {
  citation : string;
  source : string;
  others : list (string * string)
}.

(** [data.data]: either property may be absent (or [null]). *)
Record payload := {
  answer : option string;
  citations : option (list citation_t)
}.

(** The parsed body [data]; its [data] property may be absent. *)
Record body := {
  data : option payload
}.

(** How the awaited [fetch] and [response.json()] settle. *)
Inductive fetch_outcome :=
| Rejected                               (* fetch() rejects *)
| Responded (ok : bool) (parsed : option body).
                                         (* [parsed = None]: json() rejects *)

End Backend.

(** The request handed to [fetch]. *)
Record RequestBody := {
  query : string;
  model_id : option string
}.

Record Request := {
  req_url : string;
  method : string;
  content_type : string;
  body : RequestBody
}.

(** ** Fixed texts of the component *)

Definition no_information_text : string :=
  "I couldn't find relevant information for your query. Please try rephrasing your question.".

Definition apology_text : string :=
  "I'm sorry, I couldn't process your request. Please check your connection and try again.".

(** ** Mapping the backend response (lines 66-79) *)

(** [c.citation.split('.')[0] || c.citation]. *)
Definition title_of (citation : string) : string :=
  Js.or_else (Js.index (Js.split "." citation) 0) citation.

(** [c.source.split(',')[0] || c.source]. *)
Definition court_of (source : string) : string :=
  Js.or_else (Js.index (Js.split "," source) 0) source.

(** The callback of [data.data.citations?.map(...)]. *)
Definition mapCitation (c : Backend.citation_t) : M Citation.t :=
  now <- Date_now ;;
  suffix <- Math_random_suffix ;;
  ret {| Citation.id := Js.toString now ++ suffix;
         Citation.title := title_of (Backend.citation c);
         Citation.court := court_of (Backend.source c);
         Citation.year := "N/A";
         Citation.url := "#";
         Citation.citation := Backend.citation c;
         Citation.source := Backend.source c |}.

(** [data.data.citations?.map(...) || []]: an array, even an empty one, is
    truthy, so the default is taken exactly when the property is absent. *)
Definition mapCitations (cs : option (list Backend.citation_t))
  : M (list Citation.t) :=
  match cs with
  | Some l => mapM mapCitation l
  | None => ret []
  end.

(** Reading [data.data.answer] / [data.data.citations]: a [TypeError] when
    [data.data] is undefined. *)
Definition read_data (d : Backend.body) : M Backend.payload :=
  match Backend.data d with
  | Some p => ret p
  | None => throw TypeError
  end.

(** The object literal [assistantMessage]; properties are evaluated in the
    order they are written. *)
Definition assistantMessage (d : Backend.body) : M Message.t :=
  now <- Date_now ;;
  p <- read_data d ;;
  cs <- mapCitations (Backend.citations p) ;;
  ret {| Message.id := Js.toString (now + 2);
         Message.role := assistant;
         Message.content := Js.or_else (Backend.answer p) no_information_text;
         Message.citations := Some cs;
         Message.loading := None |}.

(** The object literal [errorMessage] of the [catch] block. *)
Definition errorMessage : M Message.t :=
  now <- Date_now ;;
  ret {| Message.id := Js.toString (now + 2);
         Message.role := assistant;
         Message.content := apology_text;
         Message.citations := None;
         Message.loading := None |}.

(** The [try] block from the point the awaited [fetch] settles. *)
Definition try_block (o : Backend.fetch_outcome) : M Message.t :=
  match o with
  | Backend.Rejected => throw NetworkError
  | Backend.Responded false _ => throw (Error "Failed to fetch results")
  | Backend.Responded true None => throw SyntaxError
  | Backend.Responded true (Some d) => assistantMessage d
  end.

(** The message that replaces the placeholder, on either path. *)
Definition finalMessage (o : Backend.fetch_outcome) : M Message.t :=
  try_catch (try_block o) (fun _ => errorMessage).

(** ** The component: state hooks and handlers *)

(** The four [useState] hooks of [SearchPage]. *)
Record Component := {
  messages : list Message.t;
  input : string;
  isLoading : bool;
  expandedCitations : list string
}.

Definition initial : Component :=
  {| messages := []; input := ""; isLoading := false; expandedCitations := [] |}.

(** The arguments of the [fetch] call (lines 51-57). *)
Definition query_request (text : string) : Request :=
  {| req_url := "http://localhost:8000/query";
     method := "POST";
     content_type := "application/json";
     body := {| query := text; model_id := None |} |}.

(** [handleSubmit] up to the awaited [fetch] (lines 29-57): the state after
    the three setters, and the request handed to [fetch] if there is one. *)
Definition handleSubmit_begin (c : Component) : M (Component * option Request) :=
  if Js.not_ (Js.trim (input c)) || isLoading c then ret (c, None)
  else
    now1 <- Date_now ;;
    now2 <- Date_now ;;
    let userMessage :=
      {| Message.id := Js.toString now1;
         Message.role := user;
         Message.content := input c;
         Message.citations := None;
         Message.loading := None |} in
    let loadingMessage :=
      {| Message.id := Js.toString (now2 + 1);
         Message.role := assistant;
         Message.content := "";
         Message.citations := None;
         Message.loading := Some true |} in
    ret ({| messages := messages c ++ [userMessage; loadingMessage];
            input := "";
            isLoading := true;
            expandedCitations := expandedCitations c |},
         Some (query_request (input c))).

(** The rest of [handleSubmit] (lines 59-92), run when the fetch settles:
    both branches end in [prev.slice(0, -1).concat([m])], and [finally]
    clears [isLoading]. *)
Definition handleSubmit_resume (o : Backend.fetch_outcome) (c : Component)
  : M Component :=
  m <- finalMessage o ;;
  ret {| messages := Js.slice_0_m1 (messages c) ++ [m];
         input := input c;
         isLoading := false;
         expandedCitations := expandedCitations c |}.

(** The updater of [toggleCitations] (lines 96-100). *)
Definition toggle (messageId : string) (prev : list string) : list string :=
  if Js.includes prev messageId
  then filter (fun id => negb (String.eqb id messageId)) prev
  else prev ++ [messageId].

Definition toggleCitations (messageId : string) (c : Component) : Component :=
  {| messages := messages c;
     input := input c;
     isLoading := isLoading c;
     expandedCitations := toggle messageId (expandedCitations c) |}.

(** [onChange={(e) => setInput(e.target.value)}]. *)
Definition setInput (value : string) (c : Component) : Component :=
  {| messages := messages c;
     input := value;
     isLoading := isLoading c;
     expandedCitations := expandedCitations c |}.

(** ** The component together with the network *)

(** [inflight]: requests whose fetch has not settled yet, oldest first;
    [sent]: every request handed to [fetch] so far, oldest first. *)
Record System := {
  ui : Component;
  inflight : list Request;
  sent : list Request
}.

Definition start : System := {| ui := initial; inflight := []; sent := [] |}.

Inductive Event :=
| Change (value : string)               (* typing in either input box *)
| Submit                                (* submitting either form *)
| Settle (o : Backend.fetch_outcome)    (* the oldest fetch settles *)
| Toggle (messageId : string).          (* clicking a Citations button *)

Definition step (ev : Event) (s : System) : M System :=
  match ev with
  | Change value =>
      ret {| ui := setInput value (ui s); inflight := inflight s; sent := sent s |}
  | Toggle messageId =>
      ret {| ui := toggleCitations messageId (ui s);
             inflight := inflight s; sent := sent s |}
  | Submit =>
      r <- handleSubmit_begin (ui s) ;;
      match r with
      | (c, Some rq) =>
          ret {| ui := c; inflight := inflight s ++ [rq]; sent := sent s ++ [rq] |}
      | (c, None) =>
          ret {| ui := c; inflight := inflight s; sent := sent s |}
      end
  | Settle o =>
      match inflight s with
      | [] => ret s                     (* nothing is waiting for a fetch *)
      | _ :: waiting =>
          c <- handleSubmit_resume o (ui s) ;;
          ret {| ui := c; inflight := waiting; sent := sent s |}
      end
  end.

Fixpoint run (evs : list Event) (s : System) : M System :=
  match evs with
  | [] => ret s
  | ev :: rest => s' <- step ev s ;; run rest s'
  end.

(** The states the page can be in: those some sequence of events leads to. *)
Definition reachable (s : System) : Prop :=
  exists evs w w', run evs start w = (Returned s, w').

(** ** The message bubble (JSX, lines 162-213) *)

Record Card := {
  heading : string;       (* citation.title *)
  card_court : string;    (* citation.court *)
  card_year : string;     (* citation.year *)
  href : string           (* citation.url *)
}.

Record CitationsBlock := {
  count : nat;            (* Citations (n) *)
  expanded : bool;        (* chevron up / down *)
  cards : list Card       (* shown only when expanded *)
}.

Inductive Bubble :=
| Researching
| Answer (text : string) (block : option CitationsBlock).

Definition card_of (c : Citation.t) : Card :=
  {| heading := Citation.title c;
     card_court := Citation.court c;
     card_year := Citation.year c;
     href := Citation.url c |}.

Definition renderMessage (expandedCitations : list string) (m : Message.t)
  : Bubble :=
  if Message.is_loading m then Researching
  else
    Answer (Message.content m)
      match Message.citations m with
      | Some (c :: cs) =>
          let open := Js.includes expandedCitations (Message.id m) in
          Some {| count := List.length (c :: cs);
                  expanded := open;
                  cards := if open then map card_of (c :: cs) else [] |}
      | Some [] | None => None
      end.

(** ** Configuration: [generation.providers] *)

Record ProviderSpec := {
  model_name : string;
  provider : string;
  priority : Z
}.

Definition providers : list ProviderSpec :=
  [ {| model_name := "llama-3.3-70b-versatile"; provider := "groq"; priority := 1 |};
    {| model_name := "deepseek-ai/DeepSeek-V3"; provider := "together"; priority := 2 |};
    {| model_name := "gpt-4o"; provider := "openai"; priority := 3 |};
    {| model_name := "claude-3-opus-20240229"; provider := "anthropic"; priority := 4 |} ].

(** ** Reference notions the statements below compare the code with *)

(** The text of [s] preceding the first occurrence of the delimiter [d]
    (all of [s] when [d] does not occur). *)
Fixpoint text_before_first (d : ascii) (s : string) : string :=
  match s with
  | EmptyString => EmptyString
  | String c rest =>
      if Ascii.eqb c d then EmptyString else String c (text_before_first d rest)
  end.

(** A string made of white space only (the empty string included). *)
Fixpoint blank (s : string) : bool :=
  match s with
  | EmptyString => true
  | String c rest => Js.isWhiteSpace c && blank rest
  end.

(** What a citation card can show: every field but the generated [id]. *)
Definition shown (c : Citation.t) : string * string * string * string * string * string :=
  (Citation.title c, Citation.court c, Citation.year c, Citation.url c,
   Citation.citation c, Citation.source c).

(** The shown fields as a function of the two strings the backend sent. *)
Definition shown_from (citation source : string)
  : string * string * string * string * string * string :=
  (title_of citation, court_of source, "N/A", "#", citation, source).

(** ** Notions used in the statements about the page *)

(** An outcome the handler treats as a failure: the fetch rejects, the
    status is not ok, the body is not JSON, or the body has no [data]. *)
Definition failed (o : Backend.fetch_outcome) : bool :=
  match o with
  | Backend.Rejected => true
  | Backend.Responded false _ => true
  | Backend.Responded true None => true
  | Backend.Responded true (Some d) =>
      match Backend.data d with Some _ => false | None => true end
  end.

(** The event is the settling of a fetch. *)
Definition is_settle (ev : Event) : bool :=
  match ev with Settle _ => true | _ => false end.

(** A message that is not the "Researching..." placeholder. *)
Definition settled (m : Message.t) : Prop := Message.is_loading m = false.

(** Every request sent so far is the POST of [handleSubmit], with a null
    model identifier and a query that is not blank. *)
Definition sent_well (s : System) : Prop :=
  Forall (fun rq => exists text,
              rq = query_request text /\ Js.trim text <> "") (sent s).

(** [isLoading] says whether a fetch is in flight, and the placeholder is the
    last message exactly then; no other message is a placeholder. *)
Definition loading_consistent (s : System) : Prop :=
  if isLoading (ui s)
  then exists rq ms p,
         inflight s = [rq] /\ messages (ui s) = ms ++ [p] /\
         Forall settled ms /\ Message.loading p = Some true
  else inflight s = [] /\ Forall settled (messages (ui s)).

(** The [disabled] condition of the submit button, in both forms. *)
Definition submit_disabled (c : Component) : bool :=
  Js.not_ (Js.trim (input c)) || isLoading c.

(** ** The provider chain *)

(** Modelled from the spec: the provider chain of the backend (section 4.4),
    which is not among the sources.  Providers are tried in ascending
    priority order, each at most once, and the chain stops at the first
    success; [attempt] is the outcome of calling a provider ([Some text] for a
    success).  The result is the list of providers tried, in the order they
    were tried, and the answer with the provider that gave it. *)
Fixpoint insert_by_priority (p : ProviderSpec) (l : list ProviderSpec)
  : list ProviderSpec :=
  match l with
  | [] => [p]
  | q :: rest =>
      if (priority p <? priority q)%Z then p :: q :: rest
      else q :: insert_by_priority p rest
  end.

(** Modelled from the spec: the order in which the chain visits a provider
    list, ascending by priority (equal priorities keep their list order). *)
Definition ascending_priority (l : list ProviderSpec) : list ProviderSpec :=
  fold_right insert_by_priority [] l.

(** Modelled from the spec: one pass of the chain over an ordered list,
    stopping at the first success. *)
Fixpoint try_in_order (attempt : ProviderSpec -> option string)
         (l : list ProviderSpec)
  : list ProviderSpec * option (string * ProviderSpec) :=
  match l with
  | [] => ([], None)
  | p :: rest =>
      match attempt p with
      | Some text => ([p], Some (text, p))
      | None =>
          let (tried, result) := try_in_order attempt rest in
          (p :: tried, result)
      end
  end.

(** Modelled from the spec: [generate], the chain over a configured list. *)
Definition generate (attempt : ProviderSpec -> option string)
           (l : list ProviderSpec)
  : list ProviderSpec * option (string * ProviderSpec) :=
  try_in_order attempt (ascending_priority l).

(** ** Sample inputs *)

(** A world for examples: the clock starts at a fixed instant and advances
    by one millisecond per reading. *)
Definition sample_world : World :=
  {| clock := fun n => (1700000000000 + Z.of_nat n)%Z;
     entropy := fun n => if Nat.even n then "k3j9x0q2m" else "a7c1z8w4p" |}.

(** Two questions a user may type. *)
Definition sample_question : string :=
  "What are the elements of breach of contract?".

Definition followup_question : string := "How do courts determine negligence?".

(** The page after the question has been typed and submitted. *)
Definition asked : System :=
  match run [Change sample_question; Submit] start sample_world with
  | (Returned s, _) => s
  | (Thrown _, _) => start
  end.

(** A well-formed response with two citations. *)
Definition sample_response : Backend.fetch_outcome :=
  Backend.Responded true
    (Some {| Backend.data :=
               Some {| Backend.answer :=
                         Some "A claimant must show a contract, a breach and loss.";
                       Backend.citations :=
                         Some [ {| Backend.citation := "Hadley v Baxendale. (1854) 9 Exch 341";
                                   Backend.source := "Court of Exchequer, England";
                                   Backend.others := [("score", "0.91")] |};
                                {| Backend.citation := "Carlill v Carbolic Smoke Ball Co";
                                   Backend.source := "Court of Appeal";
                                   Backend.others := [] |} ] |} |}).

(** The page after a first answer has arrived and a second question has
    been typed. *)
Definition followup : System :=
  match run [Change sample_question; Submit; Settle sample_response;
             Change followup_question] start sample_world with
  | (Returned s, _) => s
  | (Thrown _, _) => start
  end.

(** ** The search page as rendered (JSX, lines 103-230) *)

(** A search form: the centered one of the welcome screen and the one of
    [FixedSearchBar] bind the same values. *)
Record Form := {
  value : string;               (* value={input} *)
  input_disabled : bool;        (* disabled={isLoading} *)
  button_disabled : bool;       (* disabled={!input.trim() || isLoading} *)
  spinning : bool               (* isLoading ? <Loader2/> : <Send/> *)
}.

Definition form_of (c : Component) : Form :=
  {| value := input c;
     input_disabled := isLoading c;
     button_disabled := Js.not_ (Js.trim (input c)) || isLoading c;
     spinning := isLoading c |}.

(** The [<main>] element: the welcome screen with its form when
    [messages.length === 0], the bubbles otherwise. *)
Inductive Main :=
| Welcome (form : Form)
| Conversation (bubbles : list (Role * Bubble)).

Record PageView := {
  main : Main;
  fixedBar : Form;              (* <FixedSearchBar ... /> *)
  fixedBar_isVisible : bool     (* isVisible={messages.length > 0} *)
}.

Definition renderSearchPage (c : Component) : PageView :=
  {| main :=
       if Nat.eqb (List.length (messages c)) 0 then Welcome (form_of c)
       else Conversation
              (map (fun m => (Message.role m,
                              renderMessage (expandedCitations c) m))
                   (messages c));
     fixedBar := form_of c;
     fixedBar_isVisible := Nat.ltb 0 (List.length (messages c)) |}.

(** ** Navigation: [App] and [Header] *)

Module Nav.

(** The component [renderPage] returns. *)
Inductive Page := LandingPage | SearchPage | AboutPage | PricingPage.

(** [renderPage] of [App]: a [switch] on [currentPage] whose [default]
    returns the landing page. *)
Definition renderPage (currentPage : string) : Page :=
  if String.eqb currentPage "home" then LandingPage
  else if String.eqb currentPage "search" then SearchPage
  else if String.eqb currentPage "about" then AboutPage
  else if String.eqb currentPage "pricing" then PricingPage
  else LandingPage.

Record NavItem := { key : string; label : string }.

(** [navItems] of [Header]. *)
Definition navItems : list NavItem :=
  [ {| key := "home"; label := "Home" |};
    {| key := "search"; label := "Search" |};
    {| key := "about"; label := "About" |};
    {| key := "pricing"; label := "Pricing" |} ].

(** [currentPage] of [App] and [isMenuOpen] of [Header]. *)
Record t := {
  currentPage : string;
  isMenuOpen : bool
}.

Definition initial : t := {| currentPage := "home"; isMenuOpen := false |}.

(** [onNavigate] is [setCurrentPage]. *)
Definition onNavigate (page : string) (a : t) : t :=
  {| currentPage := page; isMenuOpen := isMenuOpen a |}.

Definition setIsMenuOpen (b : bool) (a : t) : t :=
  {| currentPage := currentPage a; isMenuOpen := b |}.

(** The clickable elements.  A navigation button is the [i]-th element of
    [navItems.map(...)]; the mobile buttons exist only while the menu is
    open, the two landing buttons only while the landing page is shown. *)
Inductive Click :=
| Logo
| DesktopItem (i : nat)
| MenuButton
| MobileItem (i : nat)
| StartSearch
| GetStartedFree.

Definition click (e : Click) (a : t) : t :=
  match e with
  | Logo => onNavigate "home" a
  | DesktopItem i =>
      match nth_error navItems i with
      | Some item => onNavigate (key item) a
      | None => a
      end
  | MenuButton => setIsMenuOpen (negb (isMenuOpen a)) a
  | MobileItem i =>
      if isMenuOpen a then
        match nth_error navItems i with
        | Some item => setIsMenuOpen false (onNavigate (key item) a)
        | None => a
        end
      else a
  | StartSearch | GetStartedFree =>
      match renderPage (currentPage a) with
      | LandingPage => onNavigate "search" a
      | _ => a
      end
  end.

(** [currentPage === item.key]: the item is drawn in the accent colour. *)
Definition highlighted (a : t) (item : NavItem) : bool :=
  String.eqb (currentPage a) (key item).

Definition after (clicks : list Click) : t :=
  fold_left (fun a e => click e a) clicks initial.

End Nav.

(** ** Further notions used in the statements *)

(** The messages that are not the placeholder. *)
Definition history (c : Component) : list Message.t :=
  filter (fun m => negb (Message.is_loading m)) (messages c).

(** Messages and requests correspond: one user message, carrying the query,
    and one assistant message per request, in order. *)
Fixpoint paired (msgs : list Message.t) (reqs : list Request) {struct reqs}
  : Prop :=
  match reqs with
  | [] => msgs = []
  | rq :: reqs' =>
      match msgs with
      | u :: a :: msgs' =>
          Message.role u = user /\ Message.content u = query (body rq) /\
          Message.role a = assistant /\ paired msgs' reqs'
      | _ => False
      end
  end.

(** The event is a form submission. *)
Definition is_submit (ev : Event) : bool :=
  match ev with Submit => true | _ => false end.

(** The event is a click on a Citations button. *)
Definition is_toggle (ev : Event) : bool :=
  match ev with Toggle _ => true | _ => false end.

(** The character occurs in the string. *)
Fixpoint occurs (d : ascii) (s : string) : bool :=
  match s with
  | EmptyString => false
  | String c rest => Ascii.eqb c d || occurs d rest
  end.

(** The card shown for a citation the backend sent. *)
Definition card_from (c : Backend.citation_t) : Card :=
  {| heading := title_of (Backend.citation c);
     card_court := court_of (Backend.source c);
     card_year := "N/A";
     href := "#" |}.

(** ** The response as it arrives *)

Module Wire.

(** The parsed JSON before the handler's type annotation is trusted: any
    property may be missing ([undefined] or [null]); a property that is there
    has the type the annotation gives it. *)
Record citation_t := {
  citation : option string;
  source : option string;
  others : list (string * string)
}.

Record payload := {
  answer : option string;
  citations : option (list citation_t)
}.

Record body := {
  data : option payload
}.

Inductive fetch_outcome :=
| Rejected
| Responded (ok : bool) (parsed : option body).

(** The callback of [data.data.citations?.map(...)] on such an element.  The
    properties of the object literal are evaluated in order: [id] reads the
    clock and draws the random suffix, then [c.citation.split] and
    [c.source.split] each raise a [TypeError] on a missing string. *)
Definition mapCitation (c : citation_t) : M Citation.t :=
  now <- Date_now ;;
  suffix <- Math_random_suffix ;;
  match citation c with
  | None => throw TypeError
  | Some cit =>
      match source c with
      | None => throw TypeError
      | Some src =>
          ret {| Citation.id := Js.toString now ++ suffix;
                 Citation.title := title_of cit;
                 Citation.court := court_of src;
                 Citation.year := "N/A";
                 Citation.url := "#";
                 Citation.citation := cit;
                 Citation.source := src |}
      end
  end.

Definition mapCitations (cs : option (list citation_t)) : M (list Citation.t) :=
  match cs with
  | Some l => mapM mapCitation l
  | None => ret []
  end.

Definition read_data (d : body) : M payload :=
  match data d with
  | Some p => ret p
  | None => throw TypeError
  end.

Definition assistantMessage (d : body) : M Message.t :=
  now <- Date_now ;;
  p <- read_data d ;;
  cs <- mapCitations (citations p) ;;
  ret {| Message.id := Js.toString (now + 2);
         Message.role := assistant;
         Message.content := Js.or_else (answer p) no_information_text;
         Message.citations := Some cs;
         Message.loading := None |}.

Definition try_block (o : fetch_outcome) : M Message.t :=
  match o with
  | Rejected => throw NetworkError
  | Responded false _ => throw (Error "Failed to fetch results")
  | Responded true None => throw SyntaxError
  | Responded true (Some d) => assistantMessage d
  end.

Definition finalMessage (o : fetch_outcome) : M Message.t :=
  try_catch (try_block o) (fun _ => errorMessage).

(** A response of the annotated type, seen as parsed JSON. *)
Definition of_citation (c : Backend.citation_t) : citation_t :=
  {| citation := Some (Backend.citation c);
     source := Some (Backend.source c);
     others := Backend.others c |}.

Definition of_payload (p : Backend.payload) : payload :=
  {| answer := Backend.answer p;
     citations := option_map (map of_citation) (Backend.citations p) |}.

Definition of_body (d : Backend.body) : body :=
  {| data := option_map of_payload (Backend.data d) |}.

Definition of_outcome (o : Backend.fetch_outcome) : fetch_outcome :=
  match o with
  | Backend.Rejected => Rejected
  | Backend.Responded ok parsed => Responded ok (option_map of_body parsed)
  end.

(** The element has both strings. *)
Definition complete (c : citation_t) : bool :=
  match citation c, source c with
  | Some _, Some _ => true
  | _, _ => false
  end.

(** Every citation of the payload, if it has any, has both strings. *)
Definition citations_complete (p : payload) : bool :=
  match citations p with
  | Some l => forallb complete l
  | None => true
  end.

End Wire.

(** ** The pipeline's side of the interface *)

Module Pipeline.

(** Modelled from the spec: the kinds of failure that are fatal for a query
    (section 7).  The pipeline is backend code and is not among the
    sources. *)
Inductive fatal :=
| EmbeddingUnavailable
| RetrievalUnavailable
| AllProvidersExhausted.

(** Modelled from the spec: the terminal states of the pipeline's state
    machine (section 4.6): done with an answer and its citations, done with
    an empty retrieval result, or failed. *)
Inductive terminal :=
| Done (answer : string) (citations : list Backend.citation_t)
| DoneEmpty
| Failed (kind : fatal).

(** Modelled from the spec: response assembly (sections 6, 7 and 8).  A
    failed query yields the fallback apology text and an empty citation list,
    an empty retrieval result a "no relevant information" answer and an empty
    citation list; the two texts are the backend's and are parameters here. *)
Definition respond (apology no_information : string) (t : terminal)
  : Backend.body :=
  {| Backend.data :=
       Some match t with
            | Done answer citations =>
                {| Backend.answer := Some answer;
                   Backend.citations := Some citations |}
            | DoneEmpty =>
                {| Backend.answer := Some no_information;
                   Backend.citations := Some [] |}
            | Failed _ =>
                {| Backend.answer := Some apology;
                   Backend.citations := Some [] |}
            end |}.

(** Modelled from the spec: every terminal state is delivered as a
    well-formed response object, never as a transport-level error
    (section 6). *)
Definition deliver (d : Backend.body) : Backend.fetch_outcome :=
  Backend.Responded true (Some d).

End Pipeline.

(** ** The application: navigation and the mounted search page *)

Module App.

(** [App] renders [<SearchPage />] only while [renderPage] selects it; the
    component's state lives as long as it stays mounted.  [page] is the
    mounted instance with its own requests, if there is one.  A fetch still
    pending when its instance is unmounted resolves into that instance's
    setters, which have no effect any more, so it is no event here. *)
Record t := {
  nav : Nav.t;
  page : option System
}.

Definition initial : t := {| nav := Nav.initial; page := None |}.

(** [renderPage] selects the search page. *)
Definition on_search (n : Nav.t) : bool :=
  match Nav.renderPage (Nav.currentPage n) with
  | Nav.SearchPage => true
  | _ => false
  end.

(** After a render: the instance is kept while the search page is still
    selected, a fresh one is mounted when it becomes selected, and it is
    unmounted, its state discarded, when another page is selected. *)
Definition mount (n : Nav.t) (old : option System) : option System :=
  if on_search n then
    match old with
    | Some s => Some s
    | None => Some start
    end
  else None.

Inductive Action :=
| Click (c : Nav.Click)          (* a header or landing-page button *)
| OnPage (ev : Event).           (* an event of the mounted search page *)

Definition step (e : Action) (a : t) : M t :=
  match e with
  | Click c =>
      let n := Nav.click c (nav a) in
      ret {| nav := n; page := mount n (page a) |}
  | OnPage ev =>
      match page a with
      | Some s => s' <- step ev s ;; ret {| nav := nav a; page := Some s' |}
      | None => ret a
      end
  end.

Fixpoint run (evs : list Action) (a : t) : M t :=
  match evs with
  | [] => ret a
  | e :: rest => a' <- step e a ;; run rest a'
  end.

Definition reachable (a : t) : Prop :=
  exists evs w w', run evs initial w = (Returned a, w').

(** No event of the sequence takes the user away from the search page. *)
Fixpoint stays_on_search (n : Nav.t) (evs : list Action) : bool :=
  match evs with
  | [] => true
  | Click c :: rest =>
      on_search (Nav.click c n) && stays_on_search (Nav.click c n) rest
  | OnPage _ :: rest => stays_on_search n rest
  end.

End App.

(** The page after the sample question has been answered. *)
Definition answered : System :=
  match run [Change sample_question; Submit; Settle sample_response]
            start sample_world with
  | (Returned s, _) => s
  | (Thrown _, _) => start
  end.

(** The application after the user has opened the search page, asked the
    sample question and received the sample response. *)
Definition conversing : App.t :=
  match App.run [App.Click (Nav.DesktopItem 1);
                 App.OnPage (Change sample_question);
                 App.OnPage Submit;
                 App.OnPage (Settle sample_response)]
                App.initial sample_world with
  | (Returned a, _) => a
  | (Thrown _, _) => App.initial
  end.

(** A fallback text a backend may use. *)
Definition sample_apology : string :=
  "Sorry, we could not answer your question right now. Please try again later.".

(** ** Strings *)

Lemma split_head (d : ascii) (s : string) :
  Js.index (Js.split d s) 0 = Some (text_before_first d s).
Proof.
  induction s as [|c rest IH]; simpl; [reflexivity|].
  destruct (Ascii.eqb c d); [reflexivity|].
  destruct (Js.split d rest) as [|piece pieces]; simpl in *.
  - discriminate.
  - injection IH as ->. reflexivity.
Qed.

Lemma text_before_first_empty (d : ascii) (s : string) :
  text_before_first d s = "" ->
  s = "" \/ exists rest, s = String d rest.
Proof.
  destruct s as [|c rest]; simpl; [now left|].
  destruct (Ascii.eqb_spec c d) as [->|]; [|discriminate].
  intros _. right. now exists rest.
Qed.

Lemma or_else_split (d : ascii) (s : string) :
  Js.or_else (Js.index (Js.split d s) 0) s =
  match text_before_first d s with
  | EmptyString => s
  | String c r => String c r
  end.
Proof. rewrite split_head. reflexivity. Qed.

Lemma or_else_split_empty (d : ascii) (s : string) :
  Js.or_else (Js.index (Js.split d s) 0) s = "" <-> s = "".
Proof.
  rewrite or_else_split. split.
  - destruct (text_before_first d s); [auto | discriminate].
  - intros ->. reflexivity.
Qed.

Lemma trimEnd_blank (s : string) : Js.trimEnd s = "" <-> blank s = true.
Proof.
  induction s as [|c rest IH]; simpl; [tauto|].
  destruct (Js.trimEnd rest) eqn:E.
  - destruct (Js.isWhiteSpace c); simpl.
    + tauto.
    + split; discriminate.
  - split; [discriminate|].
    rewrite andb_true_iff. intros [_ Hb]. apply IH in Hb. discriminate.
Qed.

Lemma trimStart_blank (s : string) : blank (Js.trimStart s) = blank s.
Proof.
  induction s as [|c rest IH]; simpl; [reflexivity|].
  destruct (Js.isWhiteSpace c) eqn:E; simpl; [assumption|].
  now rewrite E.
Qed.

Lemma trim_blank (s : string) : Js.trim s = "" <-> blank s = true.
Proof. unfold Js.trim. now rewrite trimEnd_blank, trimStart_blank. Qed.

Lemma includes_In (a : list string) (x : string) :
  Js.includes a x = true <-> In x a.
Proof.
  unfold Js.includes. rewrite existsb_exists. split.
  - intros (y & Hy & E). apply String.eqb_eq in E. now subst.
  - intros H. exists x. split; [assumption | apply String.eqb_refl].
Qed.

(** ** The citation callback *)

Lemma mapCitation_returns (c : Backend.citation_t) (w : World) :
  exists m w',
    mapCitation c w = (Returned m, w') /\
    shown m = shown_from (Backend.citation c) (Backend.source c).
Proof. eexists. eexists. split; reflexivity. Qed.

Lemma mapM_mapCitation (l : list Backend.citation_t) (w : World) :
  exists ms w',
    mapM mapCitation l w = (Returned ms, w') /\
    map shown ms =
    map (fun c => shown_from (Backend.citation c) (Backend.source c)) l.
Proof.
  revert w. induction l as [|c rest IH]; intros w.
  - exists [], w. split; reflexivity.
  - destruct (mapCitation_returns c w) as (m & w1 & E1 & S1).
    destruct (IH w1) as (ms & w2 & E2 & S2).
    exists (m :: ms), w2. split.
    + simpl. unfold bind at 1. rewrite E1. unfold bind at 1. rewrite E2.
      reflexivity.
    + simpl. now rewrite S1, S2.
Qed.

Lemma mapCitations_returns (cs : option (list Backend.citation_t)) (w : World) :
  exists ms w',
    mapCitations cs w = (Returned ms, w') /\
    map shown ms =
    match cs with
    | Some l => map (fun c => shown_from (Backend.citation c) (Backend.source c)) l
    | None => []
    end.
Proof.
  destruct cs as [l|]; simpl.
  - apply mapM_mapCitation.
  - exists [], w. split; reflexivity.
Qed.

Lemma assistantMessage_returns (p : Backend.payload) (w : World) :
  exists cs w',
    assistantMessage {| Backend.data := Some p |} w =
      (Returned {| Message.id := Js.toString (clock w 0 + 2)%Z;
                   Message.role := assistant;
                   Message.content := Js.or_else (Backend.answer p) no_information_text;
                   Message.citations := Some cs;
                   Message.loading := None |}, w') /\
    map shown cs =
    match Backend.citations p with
    | Some l => map (fun c => shown_from (Backend.citation c) (Backend.source c)) l
    | None => []
    end.
Proof.
  destruct (mapCitations_returns (Backend.citations p)
              {| clock := fun n => clock w (S n); entropy := entropy w |})
    as (ms & w1 & E & S).
  exists ms, w1. split; [|exact S].
  unfold assistantMessage, bind, Date_now, read_data, ret. simpl.
  rewrite E. reflexivity.
Qed.

Lemma shown_placeholders (ms : list Citation.t)
      (l : list Backend.citation_t) :
  map shown ms =
    map (fun c => shown_from (Backend.citation c) (Backend.source c)) l ->
  Forall (fun m => Citation.year m = "N/A" /\ Citation.url m = "#") ms.
Proof.
  revert l. induction ms as [|m ms IH]; intros [|c l] H; try discriminate.
  - constructor.
  - change (shown m :: map shown ms =
            shown_from (Backend.citation c) (Backend.source c)
              :: map (fun c => shown_from (Backend.citation c) (Backend.source c)) l)
      in H.
    assert (Hm : shown m = shown_from (Backend.citation c) (Backend.source c))
      by congruence.
    assert (Hms : map shown ms =
                  map (fun c => shown_from (Backend.citation c) (Backend.source c)) l)
      by congruence.
    constructor.
    + unfold shown, shown_from in Hm. inversion Hm. auto.
    + eauto.
Qed.

(** ** Claims about the response mapping *)

(** C2 (as stated, refuted): the title is not always the text before the first
    ['.'], nor the court the text before the first [',']: when the string
    begins with the delimiter the whole raw string is shown; and for an empty
    string the fallback still yields an empty field. *)
Lemma title_is_not_always_the_prefix :
  let c := {| Backend.citation := ".22 Caliber Rifle v. State";
              Backend.source := ", Court of Appeals";
              Backend.others := [] |} in
  let e := {| Backend.citation := ""; Backend.source := "";
              Backend.others := [] |} in
  (exists m w',
      mapCitation c sample_world = (Returned m, w') /\
      text_before_first "." (Backend.citation c) = "" /\
      Citation.title m = ".22 Caliber Rifle v. State" /\
      Citation.title m <> text_before_first "." (Backend.citation c) /\
      text_before_first "," (Backend.source c) = "" /\
      Citation.court m = ", Court of Appeals" /\
      Citation.court m <> text_before_first "," (Backend.source c)) /\
  (exists m w',
      mapCitation e sample_world = (Returned m, w') /\
      Citation.title m = "" /\ Citation.court m = "").
Proof.
  split; eexists; eexists; (split; [reflexivity|]); simpl;
    repeat split; discriminate.
Qed.

(** C2 (amended): the title is the text of the citation string before its
    first ['.'] when that text is non-empty and the raw citation string
    otherwise; the court is the text of the source string before its first
    [','] when that text is non-empty and the raw source string otherwise.  The
    fallback is taken exactly when the string is empty or begins with the
    delimiter, and a field is empty exactly when its raw string is. *)
Theorem title_and_court_rule (c : Backend.citation_t) (w : World) :
  exists m w',
    mapCitation c w = (Returned m, w') /\
    Citation.title m =
      match text_before_first "." (Backend.citation c) with
      | EmptyString => Backend.citation c
      | String a r => String a r
      end /\
    Citation.court m =
      match text_before_first "," (Backend.source c) with
      | EmptyString => Backend.source c
      | String a r => String a r
      end /\
    (text_before_first "." (Backend.citation c) = "" <->
       Backend.citation c = "" \/
       exists rest, Backend.citation c = String "." rest) /\
    (text_before_first "," (Backend.source c) = "" <->
       Backend.source c = "" \/
       exists rest, Backend.source c = String "," rest) /\
    (Citation.title m = "" <-> Backend.citation c = "") /\
    (Citation.court m = "" <-> Backend.source c = "").
Proof.
  eexists. eexists. split; [reflexivity|]. simpl.
  unfold title_of, court_of.
  repeat split; try apply or_else_split; try apply or_else_split_empty;
    try apply text_before_first_empty.
  - intros [->|[rest ->]]; reflexivity.
  - intros [->|[rest ->]]; reflexivity.
Qed.

Lemma shown_Forall2 (ms : list Citation.t) (l : list Backend.citation_t) :
  map shown ms =
    map (fun c => shown_from (Backend.citation c) (Backend.source c)) l ->
  Forall2 (fun c m =>
             Citation.title m = title_of (Backend.citation c) /\
             Citation.court m = court_of (Backend.source c) /\
             Citation.year m = "N/A" /\
             Citation.url m = "#" /\
             Citation.citation m = Backend.citation c /\
             Citation.source m = Backend.source c) l ms.
Proof.
  revert l. induction ms as [|m ms IH]; intros [|c l] H; try discriminate.
  - constructor.
  - change (shown m :: map shown ms =
            shown_from (Backend.citation c) (Backend.source c)
              :: map (fun c => shown_from (Backend.citation c) (Backend.source c)) l)
      in H.
    assert (Hm : shown m = shown_from (Backend.citation c) (Backend.source c))
      by congruence.
    assert (Hms : map shown ms =
                  map (fun c => shown_from (Backend.citation c) (Backend.source c)) l)
      by congruence.
    constructor; [|auto].
    unfold shown, shown_from in Hm. inversion Hm. repeat split.
Qed.

(** C4: the callback copies the citation and source strings, derives the
    title from the citation string alone and the court from the source string
    alone, and sets the year to ['N/A'] and the URL to ['#'] whatever else the
    backend object carries; so every citation of every message the handler
    produces has these two placeholders; and the message built from a
    response has one citation per citation of the response, in the same
    order, each mapped in this way. *)
Theorem citation_placeholders :
  (forall (c : Backend.citation_t) (w : World),
      exists m w',
        mapCitation c w = (Returned m, w') /\
        Citation.title m = title_of (Backend.citation c) /\
        Citation.court m = court_of (Backend.source c) /\
        Citation.year m = "N/A" /\
        Citation.url m = "#" /\
        Citation.citation m = Backend.citation c /\
        Citation.source m = Backend.source c) /\
  (forall (o : Backend.fetch_outcome) (w : World),
      exists m w',
        finalMessage o w = (Returned m, w') /\
        match Message.citations m with
        | Some cs =>
            Forall (fun c => Citation.year c = "N/A" /\ Citation.url c = "#") cs
        | None => True
        end) /\
  (forall (a : option string) (cs : option (list Backend.citation_t))
          (w : World),
      exists m w' ms,
        finalMessage
          (Backend.Responded true
             (Some {| Backend.data :=
                        Some {| Backend.answer := a;
                                Backend.citations := cs |} |})) w
          = (Returned m, w') /\
        Message.citations m = Some ms /\
        Forall2 (fun c shown_c =>
                   Citation.title shown_c = title_of (Backend.citation c) /\
                   Citation.court shown_c = court_of (Backend.source c) /\
                   Citation.year shown_c = "N/A" /\
                   Citation.url shown_c = "#" /\
                   Citation.citation shown_c = Backend.citation c /\
                   Citation.source shown_c = Backend.source c)
                match cs with Some l => l | None => [] end
                ms).
Proof.
  split; [|split].
  - intros c w. eexists. eexists. repeat split.
  - intros o w.
    destruct o as [|[|] [[[p|]]|]];
      try (eexists; eexists; split; [reflexivity | exact I]).
    destruct (assistantMessage_returns p w) as (cs & w' & E & S).
    unfold finalMessage, try_catch, try_block. rewrite E.
    eexists. eexists. split; [reflexivity|]. simpl.
    destruct (Backend.citations p) as [l|].
    + eapply shown_placeholders; eassumption.
    + destruct cs; [constructor | discriminate].
  - intros a cs w.
    destruct (assistantMessage_returns
                {| Backend.answer := a; Backend.citations := cs |} w)
      as (ms & w' & E & S).
    unfold finalMessage, try_catch, try_block. rewrite E.
    eexists. exists w', ms. split; [reflexivity|]. split; [reflexivity|].
    simpl in S. destruct cs as [l|].
    + now apply shown_Forall2.
    + destruct ms; [constructor | discriminate].
Qed.

(** C7: what is shown for the citations of a response is a function of the
    received citations list alone: in any two worlds (clock readings and
    random draws) the handler shows the same answer text and the same
    sequence of titles, courts, years, URLs, citation and source strings, in
    the order of the received list, one entry per received citation. *)
Theorem citation_display_deterministic :
  (forall (cs : option (list Backend.citation_t)) (w : World),
      exists ms w',
        mapCitations cs w = (Returned ms, w') /\
        map shown ms =
          match cs with
          | Some l =>
              map (fun c => shown_from (Backend.citation c) (Backend.source c)) l
          | None => []
          end) /\
  (forall (o : Backend.fetch_outcome) (w1 w2 : World),
      exists m1 m2 w1' w2',
        finalMessage o w1 = (Returned m1, w1') /\
        finalMessage o w2 = (Returned m2, w2') /\
        Message.content m1 = Message.content m2 /\
        option_map (map shown) (Message.citations m1) =
        option_map (map shown) (Message.citations m2)).
Proof.
  split; [exact mapCitations_returns|].
  intros o w1 w2.
  destruct o as [|[|] [[[p|]]|]];
    try (do 4 eexists; repeat split; reflexivity).
  destruct (assistantMessage_returns p w1) as (cs1 & w1' & E1 & S1).
  destruct (assistantMessage_returns p w2) as (cs2 & w2' & E2 & S2).
  unfold finalMessage, try_catch, try_block. rewrite E1, E2.
  do 4 eexists. repeat split. simpl. now rewrite S1, S2.
Qed.

(** The generated identifiers, by contrast, do follow the clock. *)
Remark citation_id_follows_clock :
  let c := {| Backend.citation := "Donoghue v Stevenson. [1932] AC 562";
              Backend.source := "House of Lords, UK";
              Backend.others := [] |} in
  let later := {| clock := fun n => (clock sample_world n + 5)%Z;
                  entropy := entropy sample_world |} in
  exists m1 m2 w1 w2,
    mapCitation c sample_world = (Returned m1, w1) /\
    mapCitation c later = (Returned m2, w2) /\
    Citation.id m1 = "1700000000000k3j9x0q2m" /\
    Citation.id m2 = "1700000000005k3j9x0q2m" /\
    shown m1 = shown m2 /\
    Citation.title m1 = "Donoghue v Stevenson" /\
    Citation.court m1 = "House of Lords".
Proof. do 4 eexists. repeat split; reflexivity. Qed.

(** On a response of the annotated type whose [data] object is present the
    mapping always returns a message; its content is the fixed "no relevant
    information" sentence when the answer is absent or empty (and the answer
    otherwise), and its citations list is defined: empty when the citations
    property is absent, one entry per received citation otherwise. *)
Lemma degenerate_response_defaults
        (a : option string) (cs : option (list Backend.citation_t)) (w : World) :
  exists m w',
    assistantMessage
      {| Backend.data := Some {| Backend.answer := a; Backend.citations := cs |} |} w
      = (Returned m, w') /\
    Message.content m =
      match a with
      | None | Some EmptyString => no_information_text
      | Some text => text
      end /\
    Message.loading m = None /\
    match cs with
    | None => Message.citations m = Some []
    | Some l =>
        exists ms, Message.citations m = Some ms /\ List.length ms = List.length l
    end.
Proof.
  destruct (assistantMessage_returns
              {| Backend.answer := a; Backend.citations := cs |} w)
    as (ms & w' & E & S).
  rewrite E. eexists. eexists. split; [reflexivity|]. simpl.
  split; [destruct a as [[|]|]; reflexivity|]. split; [reflexivity|].
  destruct cs as [l|].
  - exists ms. split; [reflexivity|].
    simpl in S. apply (f_equal (@List.length _)) in S.
    now rewrite !length_map in S.
  - simpl in S. destruct ms; [reflexivity | discriminate].
Qed.

(** ** Responses with missing properties *)

Lemma wire_mapM_agrees (l : list Backend.citation_t) (w : World) :
  mapM Wire.mapCitation (map Wire.of_citation l) w = mapM mapCitation l w.
Proof.
  revert w. induction l as [|c l IH]; intros w; [reflexivity|].
  simpl. unfold bind, Wire.mapCitation, mapCitation, Date_now,
    Math_random_suffix, ret. simpl.
  unfold bind in IH. now rewrite IH.
Qed.

(** On responses of the annotated type the two readings of the handler
    coincide. *)
Lemma wire_finalMessage_agrees (o : Backend.fetch_outcome) (w : World) :
  Wire.finalMessage (Wire.of_outcome o) w = finalMessage o w.
Proof.
  destruct o as [|[|] [[[[a [l|]]|]]|]]; try reflexivity.
  unfold Wire.finalMessage, finalMessage, try_catch. simpl.
  unfold Wire.assistantMessage, assistantMessage, bind. simpl.
  now rewrite wire_mapM_agrees.
Qed.

Lemma wire_mapM_complete (l : list Wire.citation_t) (w : World) :
  forallb Wire.complete l = true ->
  exists ms w',
    mapM Wire.mapCitation l w = (Returned ms, w') /\
    List.length ms = List.length l.
Proof.
  revert w. induction l as [|c l IH]; intros w H.
  - exists [], w. split; reflexivity.
  - simpl in H. apply andb_true_iff in H as [Hc Hl].
    destruct c as [[cit|] [src|] rest]; try discriminate.
    destruct (IH {| clock := fun n => clock w (S n);
                    entropy := fun n => entropy w (S n) |} Hl)
      as (ms & w' & E & L).
    eexists. exists w'. split.
    + simpl. unfold bind, Date_now, Math_random_suffix, ret. simpl.
      unfold bind in E. rewrite E. reflexivity.
    + simpl. now rewrite L.
Qed.

Lemma wire_mapM_incomplete (l : list Wire.citation_t) (w : World) :
  forallb Wire.complete l = false ->
  exists w', mapM Wire.mapCitation l w = (Thrown TypeError, w').
Proof.
  revert w. induction l as [|c l IH]; intros w H; [discriminate|].
  simpl in H. apply andb_false_iff in H.
  destruct c as [[cit|] [src|] rest];
    try (eexists; reflexivity).
  destruct H as [H|H]; [discriminate|].
  destruct (IH {| clock := fun n => clock w (S n);
                  entropy := fun n => entropy w (S n) |} H) as (w' & E).
  exists w'. simpl. unfold bind, Date_now, Math_random_suffix, ret. simpl.
  unfold bind in E. now rewrite E.
Qed.

(** C8 (as stated, refuted): on the body [{}] the answer and the citations
    properties are both absent, yet the content is the apology, not the "no
    relevant information" sentence, and the message has no citations
    property at all; and with [data] present but one citation lacking its
    source string, an absent answer again gives the apology. *)
Lemma missing_data_is_not_defaulted :
  (exists m w',
      Wire.finalMessage
        (Wire.Responded true (Some {| Wire.data := None |})) sample_world
        = (Returned m, w') /\
      Message.content m = apology_text /\
      Message.content m <> no_information_text /\
      Message.citations m = None /\
      Message.citations m <> Some []) /\
  (exists m w',
      Wire.finalMessage
        (Wire.Responded true
           (Some {| Wire.data :=
                      Some {| Wire.answer := None;
                              Wire.citations :=
                                Some [ {| Wire.citation := Some "Hadley v Baxendale";
                                          Wire.source := None;
                                          Wire.others := [] |} ] |} |}))
        sample_world
        = (Returned m, w') /\
      Message.content m = apology_text /\
      Message.content m <> no_information_text /\
      Message.citations m = None).
Proof.
  split; eexists; eexists; (split; [reflexivity|]); simpl;
    repeat split; discriminate.
Qed.

(** C8 (amended): the handler turns every parsed response whose
    properties, where present, have the annotated types into a message.
    When the [data] object is present and every citation it lists has its
    citation and source strings, the content is the fixed "no relevant
    information" sentence if the answer is absent or empty (the answer
    otherwise) and the citations list is defined: empty if the citations
    property is absent, one entry per received citation otherwise.  When the
    [data] object is missing, or a citation lacks one of its strings, the
    message is the fixed apology and has no citations property. *)
Theorem degenerate_response_handling (d : Wire.body) (w : World) :
  exists m w',
    Wire.finalMessage (Wire.Responded true (Some d)) w = (Returned m, w') /\
    Message.role m = assistant /\
    Message.loading m = None /\
    match Wire.data d with
    | Some p =>
        if Wire.citations_complete p then
          Message.content m =
            match Wire.answer p with
            | None | Some EmptyString => no_information_text
            | Some text => text
            end /\
          match Wire.citations p with
          | None => Message.citations m = Some []
          | Some l =>
              exists ms, Message.citations m = Some ms /\
                         List.length ms = List.length l
          end
        else
          Message.content m = apology_text /\ Message.citations m = None
    | None =>
        Message.content m = apology_text /\ Message.citations m = None
    end.
Proof.
  destruct d as [[[a cs]|]]; simpl.
  - unfold Wire.citations_complete. simpl. destruct cs as [l|].
    + destruct (forallb Wire.complete l) eqn:C.
      * destruct (wire_mapM_complete l
                    {| clock := fun n => clock w (S n); entropy := entropy w |} C)
          as (ms & w' & E & L).
        eexists. exists w'. split.
        { unfold Wire.finalMessage, try_catch, Wire.try_block,
            Wire.assistantMessage, bind, Date_now, Wire.read_data, ret.
          simpl. rewrite E. reflexivity. }
        simpl. repeat split; [destruct a as [[|]|]; reflexivity|].
        exists ms. auto.
      * destruct (wire_mapM_incomplete l
                    {| clock := fun n => clock w (S n); entropy := entropy w |} C)
          as (w' & E).
        eexists. eexists. split.
        { unfold Wire.finalMessage, try_catch, Wire.try_block,
            Wire.assistantMessage, bind, Date_now, Wire.read_data, ret.
          simpl. rewrite E. reflexivity. }
        simpl. auto.
    + eexists. eexists. split; [reflexivity|]. simpl.
      repeat split. destruct a as [[|]|]; reflexivity.
  - eexists. eexists. split; [reflexivity|]. simpl. auto.
Qed.

(** ** Expanding and collapsing citations *)

Lemma filter_other_absent (x : string) (l : list string) :
  ~ In x l -> filter (fun id => negb (String.eqb id x)) l = l.
Proof.
  induction l as [|y l IH]; simpl; [reflexivity|].
  intros H. destruct (String.eqb_spec y x) as [->|_]; simpl.
  - exfalso. apply H. now left.
  - f_equal. apply IH. intros Hin. apply H. now right.
Qed.

Lemma filter_other_In (x y : string) (l : list string) :
  In y (filter (fun id => negb (String.eqb id x)) l) <-> In y l /\ y <> x.
Proof.
  rewrite filter_In, negb_true_iff. apply and_iff_compat_l.
  destruct (String.eqb_spec y x); split; congruence.
Qed.

Lemma toggle_flips (messageId : string) (prev : list string) :
  Js.includes (toggle messageId prev) messageId =
  negb (Js.includes prev messageId).
Proof.
  unfold toggle. destruct (Js.includes prev messageId) eqn:E; simpl.
  - apply not_true_is_false. rewrite includes_In, filter_other_In. tauto.
  - apply includes_In, in_or_app. right. now left.
Qed.

Lemma toggle_twice_absent (messageId : string) (prev : list string) :
  Js.includes prev messageId = false ->
  toggle messageId (toggle messageId prev) = prev.
Proof.
  intros E. unfold toggle at 1. rewrite toggle_flips, E. simpl.
  unfold toggle. rewrite E, filter_app. simpl.
  rewrite String.eqb_refl. simpl. rewrite app_nil_r.
  apply filter_other_absent. rewrite <- includes_In. congruence.
Qed.

(** C10: toggling an identifier flips its membership in the expanded list
    (added when absent, removed when present), so toggling it twice restores
    its membership; the membership of every other identifier is untouched
    either way. *)
Theorem toggle_twice_membership (messageId : string) (prev : list string) :
  Js.includes (toggle messageId prev) messageId
    = negb (Js.includes prev messageId) /\
  Js.includes (toggle messageId (toggle messageId prev)) messageId
    = Js.includes prev messageId /\
  (forall other, Js.includes (toggle messageId (toggle messageId prev)) other
                 = Js.includes prev other) /\
  (forall c, expandedCitations (toggleCitations messageId (toggleCitations messageId c)) =
             toggle messageId (toggle messageId (expandedCitations c))).
Proof.
  split; [apply toggle_flips|].
  assert (H : forall other,
             Js.includes (toggle messageId (toggle messageId prev)) other
             = Js.includes prev other).
  { intros other. destruct (Js.includes prev messageId) eqn:E.
    - apply eq_true_iff_eq. rewrite !includes_In.
      unfold toggle at 1. rewrite toggle_flips, E. simpl.
      unfold toggle. rewrite E, in_app_iff, filter_other_In. simpl.
      apply includes_In in E.
      destruct (String.eqb_spec other messageId) as [->|N]; [tauto|].
      intuition congruence.
    - now rewrite toggle_twice_absent. }
  split; [apply H|]. split; [exact H | reflexivity].
Qed.

(** Only membership is restored: the order of the array may change. *)
Remark toggle_twice_reorders :
  toggle "a" (toggle "a" ["a"; "b"]) = ["b"; "a"].
Proof. reflexivity. Qed.

(** ** The handlers, case by case *)

Lemma finalMessage_failed (o : Backend.fetch_outcome) (w : World) :
  failed o = true ->
  exists i w',
    finalMessage o w =
      (Returned {| Message.id := i;
                   Message.role := assistant;
                   Message.content := apology_text;
                   Message.citations := None;
                   Message.loading := None |}, w').
Proof.
  destruct o as [|[|] [[[p|]]|]]; simpl; try discriminate; intros _;
    eexists; eexists; reflexivity.
Qed.

Lemma finalMessage_assistant (o : Backend.fetch_outcome) (w : World) :
  exists m w',
    finalMessage o w = (Returned m, w') /\
    Message.role m = assistant /\ Message.loading m = None.
Proof.
  destruct (Bool.bool_dec (failed o) true) as [F|F].
  - destruct (finalMessage_failed o w F) as (i & w' & E).
    rewrite E. eexists. eexists. repeat split.
  - destruct o as [|[|] [[[p|]]|]]; simpl in F; try congruence.
    destruct (assistantMessage_returns p w) as (cs & w' & E & _).
    unfold finalMessage, try_catch, try_block. rewrite E.
    eexists. eexists. repeat split.
Qed.

Lemma handleSubmit_begin_blocked (c : Component) (w : World) :
  Js.not_ (Js.trim (input c)) || isLoading c = true ->
  handleSubmit_begin c w = (Returned (c, None), w).
Proof. intros G. unfold handleSubmit_begin. now rewrite G. Qed.

Lemma handleSubmit_begin_issues (c : Component) (w : World) :
  Js.not_ (Js.trim (input c)) || isLoading c = false ->
  exists u p w',
    handleSubmit_begin c w =
      (Returned ({| messages := messages c ++ [u; p];
                    input := "";
                    isLoading := true;
                    expandedCitations := expandedCitations c |},
                 Some (query_request (input c))), w') /\
    Message.role u = user /\ Message.content u = input c /\
    Message.loading u = None /\
    Message.role p = assistant /\ Message.loading p = Some true.
Proof.
  intros G. unfold handleSubmit_begin. rewrite G.
  do 3 eexists. split; [reflexivity|]. repeat split.
Qed.

Lemma handleSubmit_resume_returns (o : Backend.fetch_outcome)
      (c : Component) (w : World) :
  exists m w',
    finalMessage o w = (Returned m, w') /\
    handleSubmit_resume o c w =
      (Returned {| messages := removelast (messages c) ++ [m];
                   input := input c;
                   isLoading := false;
                   expandedCitations := expandedCitations c |}, w') /\
    Message.role m = assistant /\ Message.loading m = None.
Proof.
  destruct (finalMessage_assistant o w) as (m & w' & E & R & L).
  exists m, w'. unfold handleSubmit_resume, bind. rewrite E. auto.
Qed.

(** No handler lets an exception escape. *)
Lemma step_returns (ev : Event) (s : System) (w : World) :
  exists s' w', step ev s w = (Returned s', w').
Proof.
  destruct ev as [value| |o|messageId]; simpl.
  - eexists. eexists. reflexivity.
  - unfold bind.
    destruct (Js.not_ (Js.trim (input (ui s))) || isLoading (ui s)) eqn:G.
    + rewrite (handleSubmit_begin_blocked _ _ G). eexists. eexists. reflexivity.
    + destruct (handleSubmit_begin_issues _ w G) as (u & p & w' & E & _).
      rewrite E. eexists. eexists. reflexivity.
  - destruct (inflight s) as [|rq waiting].
    + eexists. eexists. reflexivity.
    + destruct (handleSubmit_resume_returns o (ui s) w) as (m & w' & _ & E & _).
      unfold bind. rewrite E. eexists. eexists. reflexivity.
  - eexists. eexists. reflexivity.
Qed.

Lemma run_app (evs1 evs2 : list Event) (s : System) (w : World) :
  run (evs1 ++ evs2) s w = (s1 <- run evs1 s ;; run evs2 s1) w.
Proof.
  revert s w. induction evs1 as [|ev evs1 IH]; intros s w; simpl.
  - reflexivity.
  - unfold bind. destruct (step ev s w) as [[s1|e] w1]; [|reflexivity].
    rewrite IH. reflexivity.
Qed.

Lemma run_returns (evs : list Event) (s : System) (w : World) :
  exists s' w', run evs s w = (Returned s', w').
Proof.
  revert s w. induction evs as [|ev evs IH]; intros s w; simpl.
  - eexists. eexists. reflexivity.
  - destruct (step_returns ev s w) as (s1 & w1 & E).
    unfold bind. rewrite E. apply IH.
Qed.

(** ** Invariants of the reachable states *)

Section Invariant.
Variable P : System -> Prop.
Hypothesis P_start : P start.
Hypothesis P_step :
  forall ev s w s' w', P s -> step ev s w = (Returned s', w') -> P s'.

Lemma run_invariant (evs : list Event) :
  forall s w s' w', P s -> run evs s w = (Returned s', w') -> P s'.
Proof.
  induction evs as [|ev evs IH]; intros s w s' w' Hs; simpl.
  - intros [= <- _]. exact Hs.
  - unfold bind. destruct (step ev s w) as [[s1|e] w1] eqn:E; [|discriminate].
    intros R. eapply IH; [|exact R]. eapply P_step; eassumption.
Qed.

Lemma reachable_invariant (s : System) : reachable s -> P s.
Proof. intros (evs & w & w' & R). eapply run_invariant; eassumption. Qed.
End Invariant.

Lemma step_inv (ev : Event) (s : System) (w : World) (s' : System) (w' : World) :
  step ev s w = (Returned s', w') ->
  match ev with
  | Change value =>
      s' = {| ui := setInput value (ui s); inflight := inflight s; sent := sent s |}
  | Toggle messageId =>
      s' = {| ui := toggleCitations messageId (ui s);
              inflight := inflight s; sent := sent s |}
  | Submit =>
      (Js.not_ (Js.trim (input (ui s))) || isLoading (ui s) = true /\
       s' = {| ui := ui s; inflight := inflight s; sent := sent s |}) \/
      (Js.not_ (Js.trim (input (ui s))) || isLoading (ui s) = false /\
       exists u p,
         s' = {| ui := {| messages := messages (ui s) ++ [u; p];
                          input := "";
                          isLoading := true;
                          expandedCitations := expandedCitations (ui s) |};
                 inflight := inflight s ++ [query_request (input (ui s))];
                 sent := sent s ++ [query_request (input (ui s))] |} /\
         Message.role u = user /\ Message.content u = input (ui s) /\
         Message.loading u = None /\
         Message.role p = assistant /\ Message.loading p = Some true)
  | Settle o =>
      (inflight s = [] /\ s' = s) \/
      (exists rq waiting m,
         inflight s = rq :: waiting /\
         finalMessage o w = (Returned m, w') /\
         Message.role m = assistant /\ Message.loading m = None /\
         s' = {| ui := {| messages := removelast (messages (ui s)) ++ [m];
                          input := input (ui s);
                          isLoading := false;
                          expandedCitations := expandedCitations (ui s) |};
                 inflight := waiting;
                 sent := sent s |})
  end.
Proof.
  destruct ev as [value| |o|messageId]; simpl.
  - now intros [= <- _].
  - unfold bind.
    destruct (Js.not_ (Js.trim (input (ui s))) || isLoading (ui s)) eqn:G.
    + rewrite (handleSubmit_begin_blocked _ _ G). intros [= <- _]. now left.
    + destruct (handleSubmit_begin_issues _ w G) as (u & p & w1 & E & F).
      rewrite E. intros [= <- _]. right. split; [reflexivity|].
      exists u, p. split; [reflexivity | exact F].
  - destruct (inflight s) as [|rq waiting].
    + intros [= <- _]. now left.
    + destruct (handleSubmit_resume_returns o (ui s) w)
        as (m & w1 & Em & E & R & L).
      unfold bind. rewrite E. intros [= <- <-]. right.
      exists rq, waiting, m. auto.
  - now intros [= <- _].
Qed.

Lemma guard_open (c : Component) :
  Js.not_ (Js.trim (input c)) || isLoading c = false <->
  Js.trim (input c) <> "" /\ isLoading c = false.
Proof.
  rewrite orb_false_iff. apply and_iff_compat_r.
  unfold Js.not_. destruct (Js.trim (input c)); simpl;
    split; congruence.
Qed.

Lemma sent_well_step (ev : Event) (s : System) (w : World)
      (s' : System) (w' : World) :
  sent_well s -> step ev s w = (Returned s', w') -> sent_well s'.
Proof.
  intros Hs R. apply step_inv in R. unfold sent_well in *.
  destruct ev as [value| |o|messageId].
  - now subst s'.
  - destruct R as [[_ ->]|[G (u & p & -> & _)]]; [assumption|]. simpl.
    apply Forall_app. split; [assumption|]. constructor; [|constructor].
    exists (input (ui s)). split; [reflexivity | now apply guard_open in G].
  - destruct R as [[_ ->]|(rq & waiting & m & _ & _ & _ & _ & ->)]; assumption.
  - now subst s'.
Qed.

Lemma settled_of_loading (m : Message.t) :
  Message.loading m = None -> settled m.
Proof. unfold settled, Message.is_loading. now intros ->. Qed.

Lemma loading_consistent_step (ev : Event) (s : System) (w : World)
      (s' : System) (w' : World) :
  loading_consistent s -> step ev s w = (Returned s', w') ->
  loading_consistent s'.
Proof.
  intros Hs R. apply step_inv in R. unfold loading_consistent in *.
  destruct ev as [value| |o|messageId].
  - now subst s'.
  - destruct R as [[_ ->]|[G (u & p & -> & _ & _ & Lu & _ & Lp)]];
      [assumption|].
    apply guard_open in G as [_ G]. rewrite G in Hs. destruct Hs as [I F].
    simpl. exists (query_request (input (ui s))), (messages (ui s) ++ [u]), p.
    rewrite I, <- app_assoc. repeat split; try reflexivity; try assumption.
    apply Forall_app. split; [assumption|].
    constructor; [now apply settled_of_loading | constructor].
  - destruct R as [[_ ->]|(rq & waiting & m & I & _ & _ & L & ->)];
      [assumption|].
    simpl. destruct (isLoading (ui s)).
    + destruct Hs as (rq' & ms & p & I' & Ms & F & _).
      rewrite I' in I. injection I as _ <-. split; [reflexivity|].
      rewrite Ms, removelast_last. apply Forall_app. split; [assumption|].
      constructor; [now apply settled_of_loading | constructor].
    + destruct Hs as [I' _]. congruence.
  - now subst s'.
Qed.

Lemma reachable_sent_well (s : System) : reachable s -> sent_well s.
Proof.
  apply reachable_invariant; [constructor | exact sent_well_step].
Qed.

Lemma reachable_loading_consistent (s : System) :
  reachable s -> loading_consistent s.
Proof.
  apply reachable_invariant; [|exact loading_consistent_step].
  split; [reflexivity | constructor].
Qed.

(** While a fetch is in flight, nothing but its settling changes the
    messages: typing and toggling do not touch them, and submitting is
    refused. *)
Lemma waiting_keeps_messages (evs : list Event) :
  forallb (fun ev => negb (is_settle ev)) evs = true ->
  forall s w s' w',
    isLoading (ui s) = true ->
    run evs s w = (Returned s', w') ->
    messages (ui s') = messages (ui s) /\ isLoading (ui s') = true /\
    inflight s' = inflight s /\ sent s' = sent s.
Proof.
  induction evs as [|ev evs IH]; simpl; intros Q s w s' w' L.
  - intros [= <- _]. auto.
  - apply andb_true_iff in Q as [Qev Q]. unfold bind.
    destruct (step ev s w) as [[s1|e] w1] eqn:E; [|discriminate].
    intros R. apply step_inv in E.
    assert (K : messages (ui s1) = messages (ui s) /\ isLoading (ui s1) = true /\
                inflight s1 = inflight s /\ sent s1 = sent s).
    { destruct ev as [value| |o|messageId]; try discriminate.
      - subst s1. simpl. auto.
      - destruct E as [[_ ->]|[G _]]; [simpl; auto|].
        apply guard_open in G as [_ G]. congruence.
      - subst s1. simpl. auto. }
    destruct K as (K1 & K2 & K3 & K4).
    destruct (IH Q s1 w1 s' w' K2 R) as (H1 & H2 & H3 & H4).
    repeat split; congruence.
Qed.

(** ** Claims about submitting *)

(** C3: every request the page has sent is the POST to the query endpoint
    whose JSON body has exactly the two properties [query] and [model_id]:
    [query] is a string, [model_id] is [null]; the request is determined by
    its query string. *)
Theorem requests_carry_query_and_null_model (s : System) :
  reachable s ->
  Forall (fun rq =>
            req_url rq = "http://localhost:8000/query" /\
            method rq = "POST" /\
            content_type rq = "application/json" /\
            model_id (body rq) = None /\
            rq = query_request (query (body rq)))
         (sent s).
Proof.
  intros R. apply reachable_sent_well in R. unfold sent_well in R.
  eapply Forall_impl; [|exact R].
  intros rq (text & -> & _). repeat split.
Qed.

Lemma requests_carry_query_and_null_model_witness :
  sent asked = [ {| req_url := "http://localhost:8000/query";
                    method := "POST";
                    content_type := "application/json";
                    body := {| query := sample_question; model_id := None |} |} ] /\
  Forall (fun rq =>
            req_url rq = "http://localhost:8000/query" /\
            method rq = "POST" /\
            content_type rq = "application/json" /\
            model_id (body rq) = None /\
            rq = query_request (query (body rq)))
         (sent asked).
Proof.
  split; [reflexivity|].
  apply (requests_carry_query_and_null_model asked).
  exists [Change sample_question; Submit], sample_world.
  eexists. reflexivity.
Defined.

(** C5: submitting a form sends a request exactly when the input is not
    blank after trimming and no request is in flight (which is when the
    submit button is enabled); the request then carries the input as its
    query.  Otherwise nothing is sent and the page does not change.  Hence no
    query ever sent is empty or made of white space only. *)
Theorem submit_only_with_query (s : System) (w : World) :
  reachable s ->
  (exists s' w',
      step Submit s w = (Returned s', w') /\
      ((submit_disabled (ui s) = false /\
        Js.trim (input (ui s)) <> "" /\ inflight s = [] /\
        sent s' = sent s ++ [query_request (input (ui s))] /\
        inflight s' = [query_request (input (ui s))])
       \/
       (submit_disabled (ui s) = true /\
        (Js.trim (input (ui s)) = "" \/ inflight s <> []) /\
        sent s' = sent s /\ inflight s' = inflight s /\ ui s' = ui s))) /\
  Forall (fun rq => Js.trim (query (body rq)) <> "" /\
                    blank (query (body rq)) = false)
         (sent s).
Proof.
  intros R. split.
  - pose proof (reachable_loading_consistent s R) as C.
    destruct (step_returns Submit s w) as (s' & w' & E).
    exists s', w'. split; [exact E|].
    apply step_inv in E. unfold loading_consistent in C. unfold submit_disabled.
    destruct E as [[G ->]|[G (u & p & -> & _)]].
    + right. split; [exact G|]. simpl. repeat split.
      apply orb_true_iff in G as [G|G].
      * left. unfold Js.not_ in G.
        destruct (Js.trim (input (ui s))); [reflexivity | discriminate].
      * right. rewrite G in C. destruct C as (rq & _ & _ & I & _).
        rewrite I. discriminate.
    + left. split; [exact G|]. apply guard_open in G as [T L].
      rewrite L in C. destruct C as [I _]. simpl. rewrite I. auto.
  - apply reachable_sent_well in R. unfold sent_well in R.
    eapply Forall_impl; [|exact R].
    intros rq (text & -> & T). simpl. split; [exact T|].
    destruct (blank text) eqn:B; [|reflexivity].
    now apply trim_blank in B.
Qed.

Lemma submit_only_with_query_witness :
  (exists s' w',
      step Submit followup sample_world = (Returned s', w') /\
      ((submit_disabled (ui followup) = false /\
        Js.trim (input (ui followup)) <> "" /\ inflight followup = [] /\
        sent s' = sent followup ++ [query_request (input (ui followup))] /\
        inflight s' = [query_request (input (ui followup))])
       \/
       (submit_disabled (ui followup) = true /\
        (Js.trim (input (ui followup)) = "" \/ inflight followup <> []) /\
        sent s' = sent followup /\ inflight s' = inflight followup /\
        ui s' = ui followup))) /\
  Forall (fun rq => Js.trim (query (body rq)) <> "" /\
                    blank (query (body rq)) = false)
         (sent followup).
Proof.
  apply (submit_only_with_query followup sample_world).
  exists [Change sample_question; Submit; Settle sample_response;
          Change followup_question], sample_world.
  eexists. reflexivity.
Defined.

(** A blank input is refused without touching the page. *)
Remark blank_input_is_refused :
  let s := {| ui := setInput "   " initial; inflight := []; sent := [] |} in
  step Submit s sample_world = (Returned s, sample_world).
Proof. reflexivity. Qed.

(** The query is sent as typed: surrounding white space is not removed. *)
Remark query_is_not_trimmed :
  let s := {| ui := setInput "  negligence " initial; inflight := []; sent := [] |} in
  exists s' w',
    step Submit s sample_world = (Returned s', w') /\
    sent s' = [query_request "  negligence "].
Proof. eexists. eexists. split; reflexivity. Qed.

(** ** Claims about the life of a submission *)

Lemma removelast_two {A : Type} (l : list A) (x y : A) :
  removelast (l ++ [x; y]) = l ++ [x].
Proof.
  change (l ++ [x; y]) with (l ++ [x] ++ [y]).
  rewrite app_assoc. apply removelast_last.
Qed.

(** C9: take a reachable page on which submitting sends a request (input not
    blank, nothing loading).  After that submission, any events other than
    the settling of the fetch, and then the settling of the fetch with any
    outcome, the message list is the old list followed by exactly the user's
    message and one assistant message that is not a placeholder; no message
    of the list is a placeholder, the list is two longer, and nothing is
    loading or in flight any more. *)
Theorem submission_replaces_placeholder
        (s : System) (between : list Event)
        (o : Backend.fetch_outcome) (w : World) :
  reachable s ->
  Js.trim (input (ui s)) <> "" ->
  isLoading (ui s) = false ->
  forallb (fun ev => negb (is_settle ev)) between = true ->
  exists s' w' u a,
    run (Submit :: between ++ [Settle o]) s w = (Returned s', w') /\
    messages (ui s') = messages (ui s) ++ [u; a] /\
    Message.role u = user /\ Message.content u = input (ui s) /\
    Message.role a = assistant /\
    Message.is_loading u = false /\ Message.is_loading a = false /\
    Forall (fun m => Message.is_loading m = false) (messages (ui s')) /\
    List.length (messages (ui s')) = List.length (messages (ui s)) + 2 /\
    isLoading (ui s') = false /\ inflight s' = [].
Proof.
  intros R T L Q.
  pose proof (reachable_loading_consistent s R) as C.
  unfold loading_consistent in C. rewrite L in C. destruct C as [I F].
  destruct (step_returns Submit s w) as (s1 & w1 & E1).
  destruct (run_returns between s1 w1) as (s2 & w2 & E2).
  destruct (step_returns (Settle o) s2 w2) as (s3 & w3 & E3).
  assert (Run : run (Submit :: between ++ [Settle o]) s w = (Returned s3, w3)).
  { change (run (Submit :: between ++ [Settle o]) s w)
      with ((s1 <- step Submit s ;; run (between ++ [Settle o]) s1) w).
    unfold bind at 1. rewrite E1, run_app. unfold bind at 1. rewrite E2.
    change (run [Settle o] s2 w2)
      with ((s3 <- step (Settle o) s2 ;; ret s3) w2).
    unfold bind at 1. rewrite E3. reflexivity. }
  apply step_inv in E1.
  destruct E1 as [[G _]|[_ (u & p & -> & Ru & Cu & Lu & _ & Lp)]].
  { exfalso. assert (G' := proj2 (guard_open (ui s)) (conj T L)). congruence. }
  apply (waiting_keeps_messages between Q) in E2; [|reflexivity].
  destruct E2 as (M2 & _ & I2 & _).
  simpl in M2, I2. rewrite I in I2. simpl in I2.
  apply step_inv in E3.
  destruct E3 as [[I3 _]|(rq & waiting & a & I3 & _ & Ra & La & ->)];
    [congruence|].
  rewrite I2 in I3. injection I3 as _ <-.
  eexists. exists w3, u, a. split; [exact Run|]. simpl.
  rewrite M2, removelast_two, <- app_assoc. simpl.
  pose proof (settled_of_loading u Lu) as Su.
  pose proof (settled_of_loading a La) as Sa.
  repeat split; try assumption.
  - apply Forall_app. split; [exact F|].
    constructor; [exact Su|]. constructor; [exact Sa | constructor].
  - rewrite length_app. reflexivity.
Qed.

Lemma submission_replaces_placeholder_witness :
  exists s' w' u a,
    run (Submit :: [Change "next"; Submit; Toggle "1700000000002"]
                ++ [Settle sample_response]) followup sample_world
      = (Returned s', w') /\
    messages (ui s') = messages (ui followup) ++ [u; a] /\
    Message.role u = user /\ Message.content u = input (ui followup) /\
    Message.role a = assistant /\
    Message.is_loading u = false /\ Message.is_loading a = false /\
    Forall (fun m => Message.is_loading m = false) (messages (ui s')) /\
    List.length (messages (ui s')) = List.length (messages (ui followup)) + 2 /\
    isLoading (ui s') = false /\ inflight s' = [].
Proof.
  apply (submission_replaces_placeholder followup
           [Change "next"; Submit; Toggle "1700000000002"]
           sample_response sample_world).
  - exists [Change sample_question; Submit; Settle sample_response;
            Change followup_question], sample_world.
    eexists. reflexivity.
  - vm_compute. discriminate.
  - reflexivity.
  - reflexivity.
Defined.

(** ** Failure of a query *)

(** X14: while a request is in flight, whatever way the request itself
    fails (the fetch rejects, the status is not ok, the body is not JSON or
    has no [data]), the handler returns normally and the placeholder is
    replaced by one assistant message whose content is the fixed apology and
    which has no citations property.  Its bubble is the plain text bubble
    without a citations block, the same form in which a well-formed response
    with no citations is rendered. *)
Theorem failure_shows_apology
        (s : System) (o : Backend.fetch_outcome) (w : World)
        (expandedIds : list string) :
  reachable s ->
  isLoading (ui s) = true ->
  failed o = true ->
  exists s' w' ms p m,
    step (Settle o) s w = (Returned s', w') /\
    messages (ui s) = ms ++ [p] /\ Message.loading p = Some true /\
    messages (ui s') = ms ++ [m] /\
    Message.role m = assistant /\
    Message.content m = apology_text /\
    Message.citations m = None /\
    Message.loading m = None /\
    isLoading (ui s') = false /\ inflight s' = [] /\
    renderMessage expandedIds m = Answer apology_text None /\
    (forall (a : option string) (absent : bool) (w2 : World),
        exists m2 w2',
          finalMessage
            (Backend.Responded true
               (Some {| Backend.data :=
                          Some {| Backend.answer := a;
                                  Backend.citations :=
                                    if absent then None else Some [] |} |})) w2
            = (Returned m2, w2') /\
          renderMessage expandedIds m2 =
            Answer (Js.or_else a no_information_text) None).
Proof.
  intros R L F.
  pose proof (reachable_loading_consistent s R) as C.
  unfold loading_consistent in C. rewrite L in C.
  destruct C as (rq & ms & p & I & Ms & _ & Lp).
  destruct (step_returns (Settle o) s w) as (s' & w' & E).
  exists s', w', ms, p.
  pose proof E as E'. apply step_inv in E'.
  destruct E' as [[I' _]|(rq' & waiting & m & I' & Em & _ & _ & ->)];
    [congruence|].
  rewrite I in I'. injection I' as _ <-.
  destruct (finalMessage_failed o w F) as (i & w1 & Em').
  rewrite Em in Em'. injection Em' as -> _.
  eexists. split; [exact E|]. simpl. rewrite Ms, removelast_last.
  repeat split; try assumption.
  intros a [|] w2; eexists; eexists; (split; [reflexivity|]);
    reflexivity.
Qed.

Lemma failure_shows_apology_witness :
  exists s' w' ms p m,
    step (Settle (Backend.Responded false None)) asked sample_world
      = (Returned s', w') /\
    messages (ui asked) = ms ++ [p] /\ Message.loading p = Some true /\
    messages (ui s') = ms ++ [m] /\
    Message.role m = assistant /\
    Message.content m = apology_text /\
    Message.citations m = None /\
    Message.loading m = None /\
    isLoading (ui s') = false /\ inflight s' = [] /\
    renderMessage ["1700000000002"] m = Answer apology_text None /\
    (forall (a : option string) (absent : bool) (w2 : World),
        exists m2 w2',
          finalMessage
            (Backend.Responded true
               (Some {| Backend.data :=
                          Some {| Backend.answer := a;
                                  Backend.citations :=
                                    if absent then None else Some [] |} |})) w2
            = (Returned m2, w2') /\
          renderMessage ["1700000000002"] m2 =
            Answer (Js.or_else a no_information_text) None).
Proof.
  apply (failure_shows_apology asked (Backend.Responded false None)
           sample_world ["1700000000002"]).
  - exists [Change sample_question; Submit], sample_world.
    eexists. reflexivity.
  - reflexivity.
  - reflexivity.
Defined.

(** A failure delivered as a well-formed response that carries the apology
    text and an empty citations list is shown exactly like a failed request. *)
Remark delivered_apology_looks_the_same :
  exists m1 m2 w1 w2,
    finalMessage Backend.Rejected sample_world = (Returned m1, w1) /\
    finalMessage
      (Backend.Responded true
         (Some {| Backend.data :=
                    Some {| Backend.answer := Some apology_text;
                            Backend.citations := Some [] |} |})) sample_world
      = (Returned m2, w2) /\
    Message.citations m1 = None /\ Message.citations m2 = Some [] /\
    renderMessage [] m1 = renderMessage [] m2.
Proof. do 4 eexists. repeat split; reflexivity. Qed.

(** A response with citations, for comparison, gets its citations block. *)
Remark answer_with_citations_bubble :
  exists m w',
    finalMessage sample_response sample_world = (Returned m, w') /\
    renderMessage [Message.id m] m =
      Answer "A claimant must show a contract, a breach and loss."
        (Some {| count := 2;
                 expanded := true;
                 cards := [ {| heading := "Hadley v Baxendale";
                               card_court := "Court of Exchequer";
                               card_year := "N/A";
                               href := "#" |};
                            {| heading := "Carlill v Carbolic Smoke Ball Co";
                               card_court := "Court of Appeal";
                               card_year := "N/A";
                               href := "#" |} ] |}).
Proof. eexists. eexists. split; reflexivity. Qed.

(** ** The provider list *)

Lemma try_in_order_prefix (attempt : ProviderSpec -> option string)
      (l : list ProviderSpec) :
  exists rest, fst (try_in_order attempt l) ++ rest = l.
Proof.
  induction l as [|p l [rest IH]]; simpl.
  - now exists [].
  - destruct (attempt p).
    + now exists l.
    + destruct (try_in_order attempt l) as [tried result]. simpl in *.
      exists rest. now rewrite IH.
Qed.

Lemma StronglySorted_prefix {A : Type} (R : A -> A -> Prop) (l l' : list A) :
  StronglySorted R (l ++ l') -> StronglySorted R l.
Proof.
  induction l as [|x l IH]; simpl; intros H; [constructor|].
  inversion H as [|? ? Hs Hf]; subst. constructor; [auto|].
  apply Forall_app in Hf. tauto.
Qed.

(** C6: the configured provider list is groq, together, openai, anthropic
    with priorities 1, 2, 3, 4: strictly ascending in list order.  Putting
    the list in ascending priority order therefore leaves it as it is, and
    a chain that tries providers in ascending priority order tries an initial
    segment of the configured list, in list order. *)
Theorem providers_in_priority_order :
  map (fun p => (provider p, priority p)) providers =
    [("groq", 1%Z); ("together", 2%Z); ("openai", 3%Z); ("anthropic", 4%Z)] /\
  StronglySorted Z.lt (map priority providers) /\
  ascending_priority providers = providers /\
  (forall attempt : ProviderSpec -> option string,
      (exists rest, fst (generate attempt providers) ++ rest = providers) /\
      StronglySorted Z.lt (map priority (fst (generate attempt providers)))).
Proof.
  assert (S : StronglySorted Z.lt (map priority providers)).
  { simpl. repeat (constructor; [|repeat constructor; lia]). constructor. }
  repeat split; try reflexivity; try exact S.
  - apply try_in_order_prefix.
  - destruct (try_in_order_prefix attempt providers) as [rest E].
    unfold generate.
    change (ascending_priority providers) with providers.
    apply (StronglySorted_prefix Z.lt _ (map priority rest)).
    rewrite <- map_app, E. exact S.
Qed.

(** With groq and together failing and openai answering, exactly these
    three are tried, in this order. *)
Remark third_provider_answers :
  let attempt p := if String.eqb (provider p) "openai" then Some "text" else None in
  map provider (fst (generate attempt providers)) = ["groq"; "together"; "openai"] /\
  option_map (fun r => provider (snd r)) (snd (generate attempt providers))
    = Some "openai".
Proof. split; reflexivity. Qed.

(** ** Further properties of the title and court rule *)

Lemma text_before_first_is_prefix (d : ascii) (s : string) :
  exists rest, s = (text_before_first d s ++ rest)%string.
Proof.
  induction s as [|c s [rest IH]]; simpl.
  - now exists "".
  - destruct (Ascii.eqb c d).
    + now exists (String c s).
    + exists rest. simpl. now rewrite <- IH.
Qed.

Lemma text_before_first_free (d : ascii) (s : string) :
  occurs d (text_before_first d s) = false.
Proof.
  induction s as [|c s IH]; simpl; [reflexivity|].
  destruct (Ascii.eqb c d) eqn:E; simpl; [reflexivity|].
  now rewrite E.
Qed.

Lemma text_before_first_fixed (d : ascii) (s : string) :
  occurs d s = false -> text_before_first d s = s.
Proof.
  induction s as [|c s IH]; simpl; [reflexivity|].
  destruct (Ascii.eqb c d); simpl; [discriminate|].
  intros H. now rewrite IH.
Qed.

Lemma extract_cases (d : ascii) (s : string) :
  let t := Js.or_else (Js.index (Js.split d s) 0) s in
  (exists rest, s = (t ++ rest)%string) /\
  (occurs d t = false \/ exists rest, t = s /\ s = String d rest) /\
  Js.or_else (Js.index (Js.split d t) 0) t = t.
Proof.
  cbv zeta. rewrite or_else_split.
  destruct (text_before_first d s) as [|a r] eqn:E.
  - split; [exists ""; clear; induction s; simpl; congruence|].
    split.
    + apply text_before_first_empty in E as [->|[rest ->]].
      * now left.
      * right. now exists rest.
    + rewrite or_else_split, E. reflexivity.
  - pose proof (text_before_first_free d s) as F. rewrite E in F.
    split; [rewrite <- E; apply text_before_first_is_prefix|].
    split; [now left|].
    rewrite or_else_split, (text_before_first_fixed d _ F). reflexivity.
Qed.

(** X1: the title is always an initial segment of the citation string; it
    contains no ['.'] unless the citation string begins with one (and is then
    shown whole); and extracting a title from a title changes nothing.  The
    same holds for the court, the source string and [',']. *)
Theorem title_and_court_are_prefixes (citation source : string) :
  ((exists rest, citation = (title_of citation ++ rest)%string) /\
   (occurs "." (title_of citation) = false \/
    exists rest, title_of citation = citation /\ citation = String "." rest) /\
   title_of (title_of citation) = title_of citation) /\
  ((exists rest, source = (court_of source ++ rest)%string) /\
   (occurs "," (court_of source) = false \/
    exists rest, court_of source = source /\ source = String "," rest) /\
   court_of (court_of source) = court_of source).
Proof.
  split; [apply (extract_cases "." citation) | apply (extract_cases "," source)].
Qed.

(** ** Further properties of the expanded list *)

Lemma filter_other_twice (x : string) (l : list string) :
  filter (fun id => negb (String.eqb id x))
         (filter (fun id => negb (String.eqb id x)) l)
  = filter (fun id => negb (String.eqb id x)) l.
Proof.
  induction l as [|y l IH]; simpl; [reflexivity|].
  destruct (negb (String.eqb y x)) eqn:E; simpl; [|assumption].
  rewrite E. now f_equal.
Qed.

(** X2: one toggle touches nothing but the toggled identifier: the other
    identifiers of the expanded list are the same, in the same order, before
    and after. *)
Theorem toggle_keeps_the_others (messageId : string) (prev : list string) :
  filter (fun id => negb (String.eqb id messageId)) (toggle messageId prev)
  = filter (fun id => negb (String.eqb id messageId)) prev.
Proof.
  unfold toggle. destruct (Js.includes prev messageId).
  - apply filter_other_twice.
  - rewrite filter_app. simpl. rewrite String.eqb_refl. simpl.
    apply app_nil_r.
Qed.

Lemma toggle_NoDup (messageId : string) (prev : list string) :
  NoDup prev -> NoDup (toggle messageId prev).
Proof.
  intros N. unfold toggle. destruct (Js.includes prev messageId) eqn:E.
  - now apply NoDup_filter.
  - apply NoDup_app; [assumption | repeat constructor; intros [] |].
    intros a Ha [<-|[]]. apply includes_In in Ha. congruence.
Qed.

(** X3: the expanded list never holds an identifier twice, whatever the user
    does. *)
Theorem expanded_list_has_no_duplicates (s : System) :
  reachable s -> NoDup (expandedCitations (ui s)).
Proof.
  apply (reachable_invariant (fun s => NoDup (expandedCitations (ui s))));
    [constructor|].
  intros ev s0 w s' w' N R. apply step_inv in R.
  destruct ev as [value| |o|messageId].
  - now subst s'.
  - destruct R as [[_ ->]|[_ (u & p & -> & _)]]; assumption.
  - destruct R as [[_ ->]|(rq & waiting & m & _ & _ & _ & _ & ->)]; assumption.
  - subst s'. simpl. now apply toggle_NoDup.
Qed.

Lemma expanded_list_has_no_duplicates_witness :
  expandedCitations
    (ui (match run [Toggle "7"; Toggle "9"; Toggle "7"; Toggle "7"]
                   followup sample_world with
         | (Returned s, _) => s
         | (Thrown _, _) => start
         end)) = ["9"; "7"] /\
  NoDup (expandedCitations
    (ui (match run [Toggle "7"; Toggle "9"; Toggle "7"; Toggle "7"]
                   followup sample_world with
         | (Returned s, _) => s
         | (Thrown _, _) => start
         end))).
Proof.
  split; [reflexivity|].
  apply (expanded_list_has_no_duplicates
           (match run [Toggle "7"; Toggle "9"; Toggle "7"; Toggle "7"]
                      followup sample_world with
            | (Returned s, _) => s
            | (Thrown _, _) => start
            end)).
  exists [Change sample_question; Submit; Settle sample_response;
          Change followup_question;
          Toggle "7"; Toggle "9"; Toggle "7"; Toggle "7"], sample_world.
  eexists. reflexivity.
Defined.

(** X4: on a list without duplicates, toggling an identifier twice gives the
    original identifiers back, possibly in another order (and the very same
    list when the identifier was absent). *)
Theorem toggle_twice_permutes (messageId : string) (prev : list string) :
  NoDup prev ->
  Permutation (toggle messageId (toggle messageId prev)) prev /\
  (Js.includes prev messageId = false ->
   toggle messageId (toggle messageId prev) = prev).
Proof.
  intros N. split; [|apply toggle_twice_absent].
  destruct (Js.includes prev messageId) eqn:E.
  - unfold toggle at 1. rewrite toggle_flips, E. simpl.
    unfold toggle. rewrite E.
    apply includes_In, in_split in E. destruct E as (l1 & l2 & ->).
    apply NoDup_remove_2 in N.
    rewrite filter_app. simpl. rewrite String.eqb_refl. simpl.
    rewrite !filter_other_absent
      by (intros H; apply N, in_or_app; auto).
    rewrite <- app_assoc. apply Permutation_app_head.
    symmetry. apply Permutation_cons_append.
  - now rewrite toggle_twice_absent.
Qed.

Lemma toggle_twice_permutes_witness :
  Permutation (toggle "b" (toggle "b" ["a"; "b"; "c"])) ["a"; "b"; "c"] /\
  (Js.includes ["a"; "b"; "c"] "b" = false ->
   toggle "b" (toggle "b" ["a"; "b"; "c"]) = ["a"; "b"; "c"]).
Proof.
  apply (toggle_twice_permutes "b" ["a"; "b"; "c"]).
  repeat constructor; simpl; intuition discriminate.
Defined.

(** ** Further invariants of the page *)

(** X5: the page never has two requests in flight: at most one fetch is
    awaiting its response, [isLoading] is set exactly while there is one, and
    it is the request sent last. *)
Theorem at_most_one_request_in_flight (s : System) :
  reachable s ->
  List.length (inflight s) <= 1 /\
  (isLoading (ui s) = true <-> inflight s <> []) /\
  exists earlier, sent s = earlier ++ inflight s.
Proof.
  intros R. pose proof (reachable_loading_consistent s R) as C.
  unfold loading_consistent in C.
  split; [|split].
  - destruct (isLoading (ui s)).
    + destruct C as (rq & _ & _ & -> & _). simpl. lia.
    + destruct C as [-> _]. simpl. lia.
  - destruct (isLoading (ui s)).
    + destruct C as (rq & _ & _ & -> & _). split; [discriminate | reflexivity].
    + destruct C as [-> _]. split; [discriminate | congruence].
  - revert R.
    apply (reachable_invariant
             (fun s => exists earlier, sent s = earlier ++ inflight s)).
    + now exists [].
    + intros ev s0 w s' w' [earlier E] St. apply step_inv in St.
      destruct ev as [value| |o|messageId].
      * subst s'. now exists earlier.
      * destruct St as [[_ ->]|[_ (u & p & -> & _)]]; simpl.
        -- now exists earlier.
        -- exists earlier. now rewrite E, app_assoc.
      * destruct St as [[_ ->]|(rq & waiting & m & I & _ & _ & _ & ->)]; simpl.
        -- now exists earlier.
        -- exists (earlier ++ [rq]). now rewrite E, I, <- app_assoc.
      * subst s'. now exists earlier.
Qed.

Lemma at_most_one_request_in_flight_witness :
  inflight asked = [query_request sample_question] /\
  List.length (inflight asked) <= 1 /\
  (isLoading (ui asked) = true <-> inflight asked <> []) /\
  exists earlier, sent asked = earlier ++ inflight asked.
Proof.
  split; [reflexivity|].
  apply (at_most_one_request_in_flight asked).
  exists [Change sample_question; Submit], sample_world.
  eexists. reflexivity.
Defined.

Lemma paired_snoc (msgs : list Message.t) (reqs : list Request)
      (u a : Message.t) (rq : Request) :
  paired msgs reqs ->
  Message.role u = user -> Message.content u = query (body rq) ->
  Message.role a = assistant ->
  paired (msgs ++ [u; a]) (reqs ++ [rq]).
Proof.
  intros H Ru Cu Ra. revert msgs H.
  induction reqs as [|r reqs IH]; intros msgs H.
  - simpl in H. rewrite H. simpl. auto.
  - simpl in H. destruct msgs as [|x [|y msgs]]; try contradiction.
    destruct H as (H1 & H2 & H3 & H4). simpl. auto.
Qed.

Lemma paired_replace_last (reqs : list Request) :
  forall (l : list Message.t) (p m : Message.t),
    paired (l ++ [p]) reqs -> Message.role m = assistant ->
    paired (l ++ [m]) reqs.
Proof.
  induction reqs as [|r reqs IH]; intros l p m H Rm; simpl in *.
  - destruct l; discriminate.
  - destruct l as [|x [|y l]]; simpl in *.
    + contradiction.
    + destruct H as (H1 & H2 & _ & H4). auto.
    + destruct H as (H1 & H2 & H3 & H4). eauto.
Qed.

Lemma paired_length (reqs : list Request) :
  forall msgs, paired msgs reqs ->
               List.length msgs = 2 * List.length reqs.
Proof.
  induction reqs as [|r reqs IH]; intros msgs H; simpl in *.
  - now subst msgs.
  - destruct msgs as [|x [|y msgs]]; try contradiction.
    destruct H as (_ & _ & _ & H). apply IH in H. simpl. lia.
Qed.

Lemma paired_nth (reqs : list Request) :
  forall msgs i rq,
    paired msgs reqs -> nth_error reqs i = Some rq ->
    exists u a,
      nth_error msgs (2 * i) = Some u /\
      nth_error msgs (2 * i + 1) = Some a /\
      Message.role u = user /\ Message.content u = query (body rq) /\
      Message.role a = assistant.
Proof.
  induction reqs as [|r reqs IH]; intros msgs i rq H N.
  - destruct i; discriminate.
  - simpl in H. destruct msgs as [|x [|y msgs]]; try contradiction.
    destruct H as (H1 & H2 & H3 & H4). destruct i as [|i]; simpl in N.
    + injection N as <-. exists x, y. simpl. auto.
    + destruct (IH msgs i rq H4 N) as (u & a & Nu & Na & P).
      exists u, a. replace (2 * S i) with (S (S (2 * i))) by lia.
      simpl. auto.
Qed.

Lemma paired_step (ev : Event) (s : System) (w : World)
      (s' : System) (w' : World) :
  loading_consistent s /\ paired (messages (ui s)) (sent s) ->
  step ev s w = (Returned s', w') ->
  loading_consistent s' /\ paired (messages (ui s')) (sent s').
Proof.
  intros [C H] St. split; [eapply loading_consistent_step; eassumption|].
  apply step_inv in St. unfold loading_consistent in C.
  destruct ev as [value| |o|messageId].
  - now subst s'.
  - destruct St as [[_ ->]|[_ (u & p & -> & Ru & Cu & _ & Rp & _)]];
      [assumption|].
    simpl. now apply paired_snoc.
  - destruct St as [[_ ->]|(rq & waiting & m & I & _ & Rm & _ & ->)];
      [assumption|].
    simpl. destruct (isLoading (ui s)).
    + destruct C as (rq' & ms & p & _ & Ms & _).
      rewrite Ms in *. rewrite removelast_last.
      eapply paired_replace_last; eassumption.
    + destruct C as [I' _]. congruence.
  - now subst s'.
Qed.

(** X6: the message list mirrors the requests sent: it is twice as long as
    the list of requests, and the [i]-th request corresponds to a user
    message at position [2i], whose content is the query sent, followed
    by an assistant message at position [2i+1]. *)
Theorem messages_mirror_requests (s : System) :
  reachable s ->
  List.length (messages (ui s)) = 2 * List.length (sent s) /\
  forall i rq,
    nth_error (sent s) i = Some rq ->
    exists u a,
      nth_error (messages (ui s)) (2 * i) = Some u /\
      nth_error (messages (ui s)) (2 * i + 1) = Some a /\
      Message.role u = user /\ Message.content u = query (body rq) /\
      Message.role a = assistant.
Proof.
  intros R.
  assert (H : loading_consistent s /\ paired (messages (ui s)) (sent s)).
  { revert R.
    apply (reachable_invariant
             (fun s => loading_consistent s /\
                       paired (messages (ui s)) (sent s)));
      [|exact paired_step].
    split; [split; [reflexivity | constructor] | reflexivity]. }
  destruct H as [_ H]. split.
  - now apply paired_length.
  - intros i rq. now apply paired_nth.
Qed.

Lemma messages_mirror_requests_witness :
  List.length (messages (ui followup)) = 2 * List.length (sent followup) /\
  forall i rq,
    nth_error (sent followup) i = Some rq ->
    exists u a,
      nth_error (messages (ui followup)) (2 * i) = Some u /\
      nth_error (messages (ui followup)) (2 * i + 1) = Some a /\
      Message.role u = user /\ Message.content u = query (body rq) /\
      Message.role a = assistant.
Proof.
  apply (messages_mirror_requests followup).
  exists [Change sample_question; Submit; Settle sample_response;
          Change followup_question], sample_world.
  eexists. reflexivity.
Defined.

(** X7: requests are sent by form submissions only, at most one per
    submission: after any events the requests sent are the earlier ones
    followed by no more new ones than there were submissions; without
    a submission nothing is sent. *)
Theorem at_most_one_request_per_submit
        (evs : list Event) (s : System) (w : World) :
  exists s' w' new,
    run evs s w = (Returned s', w') /\
    sent s' = sent s ++ new /\
    List.length new <= List.length (filter is_submit evs).
Proof.
  revert s w. induction evs as [|ev evs IH]; intros s w.
  - exists s, w, []. simpl. rewrite app_nil_r. auto.
  - destruct (step_returns ev s w) as (s1 & w1 & E).
    destruct (IH s1 w1) as (s' & w' & new & R & S' & L).
    assert (K : exists first, sent s1 = sent s ++ first /\
                              List.length first <= if is_submit ev then 1 else 0).
    { pose proof E as St. apply step_inv in St.
      destruct ev as [value| |o|messageId]; simpl.
      - subst s1. exists []. simpl. now rewrite app_nil_r.
      - destruct St as [[_ ->]|[_ (u & p & -> & _)]]; simpl.
        + exists []. simpl. rewrite app_nil_r. auto.
        + eexists. split; [reflexivity | simpl; lia].
      - destruct St as [[_ ->]|(rq & waiting & m & _ & _ & _ & _ & ->)];
          exists []; simpl; now rewrite app_nil_r.
      - subst s1. exists []. simpl. now rewrite app_nil_r. }
    destruct K as (first & S1 & L1).
    exists s', w', (first ++ new). split; [|split].
    + change (run (ev :: evs) s w) with ((s1 <- step ev s ;; run evs s1) w).
      unfold bind. now rewrite E.
    + now rewrite S', S1, app_assoc.
    + rewrite length_app. simpl. destruct (is_submit ev); simpl; lia.
Qed.

Lemma history_step (ev : Event) (s : System) (w : World)
      (s' : System) (w' : World) :
  loading_consistent s -> step ev s w = (Returned s', w') ->
  exists tail, history (ui s') = history (ui s) ++ tail.
Proof.
  intros C St. apply step_inv in St. unfold loading_consistent in C.
  unfold history.
  destruct ev as [value| |o|messageId].
  - subst s'. exists []. simpl. now rewrite app_nil_r.
  - destruct St as [[_ ->]|[_ (u & p & -> & _ & _ & Lu & _ & Lp)]]; simpl.
    + exists []. now rewrite app_nil_r.
    + rewrite filter_app. eexists. reflexivity.
  - destruct St as [[_ ->]|(rq & waiting & m & I & _ & _ & Lm & ->)]; simpl.
    + exists []. now rewrite app_nil_r.
    + destruct (isLoading (ui s)).
      * destruct C as (rq' & ms & p & _ & Ms & _ & Lp).
        rewrite Ms, removelast_last, !filter_app. simpl.
        unfold Message.is_loading. rewrite Lp, Lm. simpl.
        rewrite app_nil_r. eexists. reflexivity.
      * destruct C as [I' _]. congruence.
  - subst s'. exists []. simpl. now rewrite app_nil_r.
Qed.

Lemma settled_bubble (expandedIds : list string) (m : Message.t) :
  settled m -> renderMessage expandedIds m <> Researching.
Proof. unfold settled, renderMessage. intros ->. discriminate. Qed.

Lemma settled_bubbles (expandedIds : list string) (ms : list Message.t) :
  Forall settled ms -> ~ In Researching (map (renderMessage expandedIds) ms).
Proof.
  intros F H. apply in_map_iff in H as (m & E & Hin).
  rewrite Forall_forall in F. eapply settled_bubble; eauto.
Qed.

(** X9: the "Researching..." bubble is shown exactly while a request is in
    flight, once, and as the last bubble; at any other time no bubble is a
    spinner. *)
Theorem spinner_only_while_loading (s : System) :
  reachable s ->
  let bubbles :=
    map (renderMessage (expandedCitations (ui s))) (messages (ui s)) in
  if isLoading (ui s)
  then exists front, bubbles = front ++ [Researching] /\ ~ In Researching front
  else ~ In Researching bubbles.
Proof.
  intros R. apply reachable_loading_consistent in R.
  unfold loading_consistent in R. cbv zeta.
  destruct (isLoading (ui s)).
  - destruct R as (rq & ms & p & _ & -> & F & Lp).
    exists (map (renderMessage (expandedCitations (ui s))) ms).
    rewrite map_app. simpl. split; [|now apply settled_bubbles].
    unfold renderMessage at 2, Message.is_loading. now rewrite Lp.
  - destruct R as [_ F]. now apply settled_bubbles.
Qed.

Lemma spinner_only_while_loading_witness :
  let bubbles :=
    map (renderMessage (expandedCitations (ui asked))) (messages (ui asked)) in
  if isLoading (ui asked)
  then exists front, bubbles = front ++ [Researching] /\ ~ In Researching front
  else ~ In Researching bubbles.
Proof.
  apply (spinner_only_while_loading asked).
  exists [Change sample_question; Submit], sample_world.
  eexists. reflexivity.
Defined.

(** ** What the user sees *)

Lemma cards_of_shown (ms : list Citation.t) (l : list Backend.citation_t) :
  map shown ms =
    map (fun c => shown_from (Backend.citation c) (Backend.source c)) l ->
  map card_of ms = map card_from l.
Proof.
  revert l. induction ms as [|m ms IH]; intros [|c l] H; try discriminate.
  - reflexivity.
  - change (shown m :: map shown ms =
            shown_from (Backend.citation c) (Backend.source c)
              :: map (fun c => shown_from (Backend.citation c) (Backend.source c)) l)
      in H.
    assert (Hm : shown m = shown_from (Backend.citation c) (Backend.source c))
      by congruence.
    assert (Hms : map shown ms =
                  map (fun c => shown_from (Backend.citation c) (Backend.source c)) l)
      by congruence.
    simpl. rewrite (IH l Hms). f_equal.
    unfold shown, shown_from in Hm. unfold card_of, card_from.
    inversion Hm. reflexivity.
Qed.

(** X10: a response that carries citations is shown with a citations block
    whose counter is the number of citations received; the block is open
    exactly when the message's identifier is in the expanded list, and then
    shows one card per received citation, in the received order, with the
    derived title and court, ['N/A'] and ['#']. *)
Theorem citations_block_shows_what_was_received
        (a : option string) (c : Backend.citation_t)
        (cs : list Backend.citation_t) (w : World)
        (expandedIds : list string) :
  exists m w',
    finalMessage
      (Backend.Responded true
         (Some {| Backend.data :=
                    Some {| Backend.answer := a;
                            Backend.citations := Some (c :: cs) |} |})) w
      = (Returned m, w') /\
    renderMessage expandedIds m =
      Answer (Js.or_else a no_information_text)
        (Some {| count := S (List.length cs);
                 expanded := Js.includes expandedIds (Message.id m);
                 cards := if Js.includes expandedIds (Message.id m)
                          then map card_from (c :: cs) else [] |}).
Proof.
  destruct (assistantMessage_returns
              {| Backend.answer := a; Backend.citations := Some (c :: cs) |} w)
    as (ms & w' & E & S).
  unfold finalMessage, try_catch, try_block. rewrite E.
  eexists. eexists. split; [reflexivity|].
  simpl in S. pose proof (cards_of_shown ms (c :: cs) S) as K.
  apply (f_equal (@List.length _)) in S. rewrite !length_map in S.
  destruct ms as [|m ms]; [discriminate|].
  unfold renderMessage. simpl. simpl in S. injection S as S.
  rewrite S, length_map. simpl in K. rewrite K. reflexivity.
Qed.

Lemma sent_grows (evs : list Event) (s : System) (w : World)
      (s' : System) (w' : World) :
  run evs s w = (Returned s', w') -> exists new, sent s' = sent s ++ new.
Proof.
  intros R.
  destruct (at_most_one_request_per_submit evs s w)
    as (s2 & w2 & new & R2 & E & _).
  rewrite R in R2. injection R2 as <- _. now exists new.
Qed.

(** Under the events of the page itself: the welcome screen is shown
    exactly as long as the page has sent no request; afterwards it shows two
    bubbles per request sent and the fixed search bar, which then stays. *)
Lemma welcome_until_first_request (s : System) (evs : list Event) (w : World) :
  reachable s ->
  ((main (renderSearchPage (ui s)) = Welcome (form_of (ui s)) /\
    fixedBar_isVisible (renderSearchPage (ui s)) = false /\
    sent s = [])
   \/
   (exists bubbles,
       main (renderSearchPage (ui s)) = Conversation bubbles /\
       List.length bubbles = 2 * List.length (sent s) /\
       fixedBar_isVisible (renderSearchPage (ui s)) = true /\
       sent s <> [])) /\
  exists s' w',
    run evs s w = (Returned s', w') /\
    (fixedBar_isVisible (renderSearchPage (ui s)) = true ->
     fixedBar_isVisible (renderSearchPage (ui s')) = true).
Proof.
  intros R.
  assert (H : loading_consistent s /\ paired (messages (ui s)) (sent s)).
  { revert R.
    apply (reachable_invariant
             (fun s => loading_consistent s /\
                       paired (messages (ui s)) (sent s)));
      [|exact paired_step].
    split; [split; [reflexivity | constructor] | reflexivity]. }
  pose proof (paired_length _ _ (proj2 H)) as L.
  split.
  - unfold renderSearchPage. simpl.
    destruct (sent s) as [|rq reqs] eqn:S; simpl in L.
    + left. rewrite L. auto.
    + right. rewrite L. simpl. eexists. split; [reflexivity|].
      rewrite length_map, L. repeat split. discriminate.
  - destruct (run_returns evs s w) as (s' & w' & Run).
    exists s', w'. split; [exact Run|].
    pose proof (run_invariant _ paired_step evs _ _ _ _ H Run) as H'.
    pose proof (paired_length _ _ (proj2 H')) as L'.
    destruct (sent_grows _ _ _ _ _ Run) as [new E].
    unfold renderSearchPage. simpl. rewrite L, L', E, length_app.
    rewrite !Nat.ltb_lt. lia.
Qed.

(** ** Navigation *)

Lemma click_known (e : Nav.Click) (a : Nav.t) :
  In (Nav.currentPage a) (map Nav.key Nav.navItems) ->
  In (Nav.currentPage (Nav.click e a)) (map Nav.key Nav.navItems).
Proof.
  intros K.
  assert (I : forall i item, nth_error Nav.navItems i = Some item ->
                             In (Nav.key item) (map Nav.key Nav.navItems)).
  { intros i item N. apply in_map. eapply nth_error_In. exact N. }
  destruct e as [|i| |i| |]; unfold Nav.click.
  - now left.
  - destruct (nth_error Nav.navItems i) as [item|] eqn:N; [|exact K].
    exact (I i item N).
  - exact K.
  - destruct (Nav.isMenuOpen a); [|exact K].
    destruct (nth_error Nav.navItems i) as [item|] eqn:N; [|exact K].
    exact (I i item N).
  - destruct (Nav.renderPage (Nav.currentPage a)); [right; now left | | |];
      exact K.
  - destruct (Nav.renderPage (Nav.currentPage a)); [right; now left | | |];
      exact K.
Qed.

Lemma clicks_known (clicks : list Nav.Click) :
  forall a,
    In (Nav.currentPage a) (map Nav.key Nav.navItems) ->
    In (Nav.currentPage (fold_left (fun a e => Nav.click e a) clicks a))
       (map Nav.key Nav.navItems).
Proof.
  induction clicks as [|e clicks IH]; intros a K; simpl; [exact K|].
  apply IH. now apply click_known.
Qed.

(** X12: whatever is clicked (logo, navigation buttons of either menu, menu
    button, the landing page's two buttons), the current page is always the
    key of one of the header's navigation items; exactly that item is
    highlighted; and the landing page is shown only for ['home'], so the
    [default] branch of [renderPage] is never the one taken. *)
Theorem navigation_stays_on_known_pages (clicks : list Nav.Click) :
  exists item,
    In item Nav.navItems /\
    Nav.currentPage (Nav.after clicks) = Nav.key item /\
    filter (Nav.highlighted (Nav.after clicks)) Nav.navItems = [item] /\
    (Nav.renderPage (Nav.currentPage (Nav.after clicks)) = Nav.LandingPage
     <-> Nav.currentPage (Nav.after clicks) = "home").
Proof.
  pose proof (clicks_known clicks Nav.initial (or_introl eq_refl)) as K.
  fold (Nav.after clicks) in K. unfold Nav.highlighted.
  simpl in K. destruct K as [K|[K|[K|[K|[]]]]]; rewrite <- K;
    [ exists {| Nav.key := "home"; Nav.label := "Home" |}
    | exists {| Nav.key := "search"; Nav.label := "Search" |}
    | exists {| Nav.key := "about"; Nav.label := "About" |}
    | exists {| Nav.key := "pricing"; Nav.label := "Pricing" |} ];
    (split; [simpl; tauto|]);
    (split; [reflexivity|]); (split; [reflexivity|]);
    simpl; split; (reflexivity || discriminate).
Qed.

(** A mobile navigation click leaves the menu closed, and clicking the menu
    button twice leaves it as it was. *)
Remark mobile_menu_closes (i : nat) (a : Nav.t) :
  Nav.isMenuOpen a = true -> i < 4 ->
  Nav.isMenuOpen (Nav.click (Nav.MobileItem i) a) = false /\
  Nav.isMenuOpen (Nav.click Nav.MenuButton (Nav.click Nav.MenuButton a))
    = Nav.isMenuOpen a.
Proof.
  intros O L. simpl. rewrite O.
  do 4 (destruct i as [|i]; [split; reflexivity|]). lia.
Qed.

(** ** The user's own bubbles *)

Lemma Forall_removelast_keep {A : Type} (P : A -> Prop) (l : list A) :
  Forall P l -> Forall P (removelast l).
Proof.
  induction l as [|x l IH]; intros H; simpl; [constructor|].
  inversion H; subst. destruct l; [constructor|]. constructor; auto.
Qed.

Lemma step_Submit_messages (s : System) (w : World)
      (s' : System) (w' : World) :
  step Submit s w = (Returned s', w') ->
  messages (ui s') = messages (ui s) \/
  exists u p,
    messages (ui s') = messages (ui s) ++ [u; p] /\
    Message.role u = user /\ Message.citations u = None /\
    Message.loading u = None /\ Message.role p = assistant.
Proof.
  unfold step, bind, handleSubmit_begin.
  destruct (Js.not_ (Js.trim (input (ui s))) || isLoading (ui s)).
  - intros [= <- _]. now left.
  - unfold bind, Date_now, ret. simpl. intros [= <- _]. right.
    eexists. eexists. split; [reflexivity|]. repeat split.
Qed.

(** X13: a user message is always shown as plain text, exactly as it was
    typed: it is never a spinner and never carries a citations block, so
    Citations buttons appear on assistant bubbles only. *)
Theorem user_bubbles_are_plain_text (s : System) (expandedIds : list string) :
  reachable s ->
  Forall (fun m => Message.role m = user ->
                   renderMessage expandedIds m = Answer (Message.content m) None)
         (messages (ui s)).
Proof.
  intros R.
  assert (H : Forall (fun m => Message.role m = user ->
                               Message.citations m = None /\
                               Message.loading m = None)
                     (messages (ui s))).
  { revert R.
    apply (reachable_invariant
             (fun s => Forall (fun m => Message.role m = user ->
                                        Message.citations m = None /\
                                        Message.loading m = None)
                              (messages (ui s))));
      [constructor|].
    intros ev s0 w s' w' F St.
    destruct ev as [value| |o|messageId].
    - apply step_inv in St. now subst s'.
    - apply step_Submit_messages in St.
      destruct St as [->|(u & p & -> & Ru & Cu & Lu & Rp)]; [assumption|].
      apply Forall_app. split; [assumption|].
      constructor; [auto|]. constructor; [|constructor].
      intros C. congruence.
    - apply step_inv in St.
      destruct St as [[_ ->]|(rq & waiting & m & _ & _ & Rm & _ & ->)];
        [assumption|].
      simpl. apply Forall_app. split; [now apply Forall_removelast_keep|].
      constructor; [|constructor]. intros C. congruence.
    - apply step_inv in St. now subst s'. }
  eapply Forall_impl; [|exact H].
  intros m K Ru. destruct (K Ru) as [C L].
  unfold renderMessage, Message.is_loading. now rewrite L, C.
Qed.

Lemma user_bubbles_are_plain_text_witness :
  List.length (messages (ui followup)) = 2 /\
  Forall (fun m => Message.role m = user ->
                   renderMessage ["1700000000004"] m
                   = Answer (Message.content m) None)
         (messages (ui followup)).
Proof.
  split; [reflexivity|].
  apply (user_bubbles_are_plain_text followup ["1700000000004"]).
  exists [Change sample_question; Submit; Settle sample_response;
          Change followup_question], sample_world.
  eexists. reflexivity.
Defined.

(** ** A failed query, end to end *)

(** C1: a query whose pipeline fails, for whichever fatal reason, reaches the
    page as a well-formed response, not as a failed request: the handler's
    [try] block returns and the [catch] block is not entered.  The
    placeholder is replaced by a single assistant message whose content is
    exactly the backend's apology text and whose citations list is empty; it
    is shown as a plain text bubble without a citations block.  An
    empty-result answer goes through the same code and gives the same message
    but for its text. *)
Theorem pipeline_failure_shows_apology
        (apology no_information : string) (kind : Pipeline.fatal)
        (s : System) (w : World) (expandedIds : list string) :
  apology <> "" ->
  reachable s ->
  isLoading (ui s) = true ->
  let o := Pipeline.deliver
             (Pipeline.respond apology no_information (Pipeline.Failed kind)) in
  let o_empty := Pipeline.deliver
                   (Pipeline.respond apology no_information Pipeline.DoneEmpty) in
  failed o = false /\
  exists s' w' ms p m,
    step (Settle o) s w = (Returned s', w') /\
    try_block o w = (Returned m, w') /\
    messages (ui s) = ms ++ [p] /\ Message.loading p = Some true /\
    messages (ui s') = ms ++ [m] /\
    Message.role m = assistant /\
    Message.content m = apology /\
    Message.citations m = Some [] /\
    Message.loading m = None /\
    isLoading (ui s') = false /\ inflight s' = [] /\
    renderMessage expandedIds m = Answer apology None /\
    try_block o_empty w =
      (Returned {| Message.id := Message.id m;
                   Message.role := Message.role m;
                   Message.content :=
                     Js.or_else (Some no_information) no_information_text;
                   Message.citations := Message.citations m;
                   Message.loading := Message.loading m |}, w') /\
    renderMessage expandedIds
      {| Message.id := Message.id m;
         Message.role := Message.role m;
         Message.content := Js.or_else (Some no_information) no_information_text;
         Message.citations := Message.citations m;
         Message.loading := Message.loading m |}
    = Answer (Js.or_else (Some no_information) no_information_text) None.
Proof.
  intros A R L. cbv zeta. split; [reflexivity|].
  destruct apology as [|c0 r0]; [congruence|].
  pose proof (reachable_loading_consistent s R) as C.
  unfold loading_consistent in C. rewrite L in C.
  destruct C as (rq & ms & p & I & Ms & _ & Lp).
  unfold step. rewrite I.
  eexists. eexists. exists ms, p. eexists.
  split; [reflexivity|]. split; [reflexivity|].
  simpl. rewrite Ms, removelast_last. repeat split; assumption.
Qed.

Lemma pipeline_failure_shows_apology_witness :
  let o := Pipeline.deliver
             (Pipeline.respond sample_apology "No relevant cases were found."
                (Pipeline.Failed Pipeline.AllProvidersExhausted)) in
  let o_empty := Pipeline.deliver
                   (Pipeline.respond sample_apology "No relevant cases were found."
                      Pipeline.DoneEmpty) in
  failed o = false /\
  exists s' w' ms p m,
    step (Settle o) asked sample_world = (Returned s', w') /\
    try_block o sample_world = (Returned m, w') /\
    messages (ui asked) = ms ++ [p] /\ Message.loading p = Some true /\
    messages (ui s') = ms ++ [m] /\
    Message.role m = assistant /\
    Message.content m = sample_apology /\
    Message.citations m = Some [] /\
    Message.loading m = None /\
    isLoading (ui s') = false /\ inflight s' = [] /\
    renderMessage ["1700000000004"] m = Answer sample_apology None /\
    try_block o_empty sample_world =
      (Returned {| Message.id := Message.id m;
                   Message.role := Message.role m;
                   Message.content :=
                     Js.or_else (Some "No relevant cases were found.")
                                no_information_text;
                   Message.citations := Message.citations m;
                   Message.loading := Message.loading m |}, w') /\
    renderMessage ["1700000000004"]
      {| Message.id := Message.id m;
         Message.role := Message.role m;
         Message.content :=
           Js.or_else (Some "No relevant cases were found.") no_information_text;
         Message.citations := Message.citations m;
         Message.loading := Message.loading m |}
    = Answer (Js.or_else (Some "No relevant cases were found.")
                         no_information_text) None.
Proof.
  apply (pipeline_failure_shows_apology
           sample_apology "No relevant cases were found."
           Pipeline.AllProvidersExhausted asked sample_world ["1700000000004"]).
  - discriminate.
  - exists [Change sample_question; Submit], sample_world.
    eexists. reflexivity.
  - reflexivity.
Defined.

(** ** The search page inside the application *)

Lemma app_step_click (c : Nav.Click) (a : App.t) (w : World) :
  App.step (App.Click c) a w =
  (Returned {| App.nav := Nav.click c (App.nav a);
               App.page := App.mount (Nav.click c (App.nav a)) (App.page a) |},
   w).
Proof. reflexivity. Qed.

Lemma app_step_on_page (ev : Event) (a : App.t) (s : System) (w : World)
      (s' : System) (w' : World) :
  App.page a = Some s ->
  step ev s w = (Returned s', w') ->
  App.step (App.OnPage ev) a w =
  (Returned {| App.nav := App.nav a; App.page := Some s' |}, w').
Proof.
  intros Pa St. unfold App.step. rewrite Pa. unfold bind. now rewrite St.
Qed.

(** The mounted page is a page that was started afresh and has handled its
    own events since. *)
Lemma app_run_page (evs : list App.Action) :
  forall a w a' w',
    (forall s, App.page a = Some s ->
               exists pevs w0, run pevs start w0 = (Returned s, w)) ->
    App.run evs a w = (Returned a', w') ->
    forall s', App.page a' = Some s' ->
               exists pevs w0, run pevs start w0 = (Returned s', w').
Proof.
  induction evs as [|e evs IH]; intros a w a' w' Q Run.
  - simpl in Run. injection Run as <- <-. exact Q.
  - change (App.run (e :: evs) a w)
      with ((a1 <- App.step e a ;; App.run evs a1) w) in Run.
    unfold bind in Run.
    destruct (App.step e a w) as [[a1|x] w1] eqn:E; [|discriminate].
    apply (IH a1 w1 a' w'); [|exact Run].
    intros s1 P1. destruct e as [c|ev].
    + rewrite app_step_click in E. injection E as <- <-.
      simpl in P1. unfold App.mount in P1.
      destruct (App.on_search (Nav.click c (App.nav a))); [|discriminate].
      destruct (App.page a) as [s0|] eqn:Pa.
      * injection P1 as <-. now apply Q.
      * injection P1 as <-. exists [], w. reflexivity.
    + unfold App.step in E. destruct (App.page a) as [s0|] eqn:Pa.
      * unfold bind in E.
        destruct (step ev s0 w) as [[s2|x] w2] eqn:St; [|discriminate].
        injection E as <- <-. simpl in P1. injection P1 as <-.
        destruct (Q s0 eq_refl) as (pevs & w0 & R0).
        exists (pevs ++ [ev]), w0. rewrite run_app. unfold bind at 1.
        rewrite R0.
        change (run [ev] s0 w) with ((s3 <- step ev s0 ;; ret s3) w).
        unfold bind. now rewrite St.
      * injection E as <- <-. rewrite Pa in P1. discriminate.
Qed.

Lemma app_reachable_page (a : App.t) (s : System) :
  App.reachable a -> App.page a = Some s -> reachable s.
Proof.
  intros (evs & w & w' & Run) Pa.
  destruct (app_run_page evs App.initial w a w') with (s' := s)
    as (pevs & w0 & R); [discriminate | exact Run | exact Pa |].
  now exists pevs, w0, w'.
Qed.

Section WhileMounted.
Variable P : System -> Prop.
Variable R : System -> System -> Prop.
Hypothesis P_step :
  forall ev s w s' w', P s -> step ev s w = (Returned s', w') -> P s'.
Hypothesis R_refl : forall s, R s s.
Hypothesis R_trans : forall s1 s2 s3, R s1 s2 -> R s2 s3 -> R s1 s3.
Hypothesis R_step :
  forall ev s w s' w', P s -> step ev s w = (Returned s', w') -> R s s'.

(** As long as no click leaves the search page, the mounted instance goes
    on: what its own steps preserve and relate carries over the run. *)
Lemma run_while_mounted (evs : list App.Action) :
  forall a s w,
    App.page a = Some s -> P s ->
    App.stays_on_search (App.nav a) evs = true ->
    exists a' w' s',
      App.run evs a w = (Returned a', w') /\
      App.page a' = Some s' /\ P s' /\ R s s'.
Proof.
  induction evs as [|e evs IH]; intros a s w Pa Ps St.
  - exists a, w, s. repeat split; auto.
  - destruct e as [c|ev]; simpl in St.
    + apply andb_true_iff in St as [On St].
      assert (Pm : App.page
                     {| App.nav := Nav.click c (App.nav a);
                        App.page := App.mount (Nav.click c (App.nav a))
                                              (App.page a) |} = Some s).
      { simpl. unfold App.mount. now rewrite On, Pa. }
      destruct (IH _ s w Pm Ps St) as (a' & w' & s' & Run & Pa' & Ps' & Rs).
      exists a', w', s'. repeat split; assumption.
    + destruct (step_returns ev s w) as (s1 & w1 & E).
      pose proof (P_step _ _ _ _ _ Ps E) as Ps1.
      destruct (IH {| App.nav := App.nav a; App.page := Some s1 |} s1 w1
                   eq_refl Ps1 St)
        as (a' & w' & s' & Run & Pa' & Ps' & Rs).
      exists a', w', s'. repeat split; try assumption.
      * change (App.run (App.OnPage ev :: evs) a w)
          with ((a1 <- App.step (App.OnPage ev) a ;; App.run evs a1) w).
        unfold bind. now rewrite (app_step_on_page ev a s w s1 w1 Pa E).
      * eapply R_trans; [eapply R_step; eassumption | exact Rs].
Qed.
End WhileMounted.

Lemma reachable_paired (s : System) :
  reachable s ->
  loading_consistent s /\ paired (messages (ui s)) (sent s).
Proof.
  apply (reachable_invariant
           (fun s => loading_consistent s /\
                     paired (messages (ui s)) (sent s)));
    [|exact paired_step].
  split; [split; [reflexivity | constructor] | reflexivity].
Qed.

Lemma step_sent_grows (ev : Event) (s : System) (w : World)
      (s' : System) (w' : World) :
  step ev s w = (Returned s', w') -> exists new, sent s' = sent s ++ new.
Proof.
  intros St. apply (sent_grows [ev] s w s' w').
  change (run [ev] s w) with ((s1 <- step ev s ;; ret s1) w).
  unfold bind. now rewrite St.
Qed.

(** X8: as long as the user stays on the search page, what has been said
    stays: whatever is typed, submitted, toggled, answered or clicked without
    leaving the page, the messages other than the placeholder are never
    removed, changed or reordered; later messages are only added after
    them. *)
Theorem history_kept_while_mounted
        (a : App.t) (s : System) (evs : list App.Action) (w : World) :
  App.reachable a ->
  App.page a = Some s ->
  App.stays_on_search (App.nav a) evs = true ->
  exists a' w' s' tail,
    App.run evs a w = (Returned a', w') /\
    App.page a' = Some s' /\
    history (ui s') = history (ui s) ++ tail.
Proof.
  intros Ra Pa St.
  pose proof (app_reachable_page a s Ra Pa) as Rs.
  apply reachable_loading_consistent in Rs.
  destruct (run_while_mounted
              loading_consistent
              (fun s s' => exists tail, history (ui s') = history (ui s) ++ tail)
              loading_consistent_step) with (evs := evs) (a := a) (s := s) (w := w)
    as (a' & w' & s' & Run & Pa' & _ & tail & H); try assumption.
  - intros s0. exists []. now rewrite app_nil_r.
  - intros s1 s2 s3 [t1 H1] [t2 H2]. exists (t1 ++ t2).
    now rewrite H2, H1, app_assoc.
  - exact history_step.
  - now exists a', w', s', tail.
Qed.

Lemma history_kept_while_mounted_witness :
  exists a' w' s' tail,
    App.run [App.OnPage (Change "and in contract law?");
             App.Click (Nav.DesktopItem 1);
             App.OnPage Submit;
             App.Click Nav.MenuButton;
             App.OnPage (Settle Backend.Rejected)] conversing sample_world
      = (Returned a', w') /\
    App.page a' = Some s' /\
    history (ui s') = history (ui answered) ++ tail.
Proof.
  apply (history_kept_while_mounted conversing answered
           [App.OnPage (Change "and in contract law?");
            App.Click (Nav.DesktopItem 1);
            App.OnPage Submit;
            App.Click Nav.MenuButton;
            App.OnPage (Settle Backend.Rejected)] sample_world).
  - exists [App.Click (Nav.DesktopItem 1);
            App.OnPage (Change sample_question);
            App.OnPage Submit;
            App.OnPage (Settle sample_response)], sample_world.
    eexists. reflexivity.
  - reflexivity.
  - reflexivity.
Defined.

(** X11: for the mounted search page, the welcome screen (with its centered
    form, the fixed search bar hidden) is shown exactly as long as the page
    has sent no request since it was mounted; afterwards the page shows two
    bubbles per request it sent and the fixed search bar; and as long as the
    user does not leave the search page, a visible fixed bar stays visible. *)
Theorem welcome_kept_while_mounted
        (a : App.t) (s : System) (evs : list App.Action) (w : World) :
  App.reachable a ->
  App.page a = Some s ->
  App.stays_on_search (App.nav a) evs = true ->
  ((main (renderSearchPage (ui s)) = Welcome (form_of (ui s)) /\
    fixedBar_isVisible (renderSearchPage (ui s)) = false /\
    sent s = [])
   \/
   (exists bubbles,
       main (renderSearchPage (ui s)) = Conversation bubbles /\
       List.length bubbles = 2 * List.length (sent s) /\
       fixedBar_isVisible (renderSearchPage (ui s)) = true /\
       sent s <> [])) /\
  exists a' w' s',
    App.run evs a w = (Returned a', w') /\
    App.page a' = Some s' /\
    (fixedBar_isVisible (renderSearchPage (ui s)) = false \/
     fixedBar_isVisible (renderSearchPage (ui s')) = true).
Proof.
  intros Ra Pa St.
  pose proof (app_reachable_page a s Ra Pa) as Rs.
  split; [exact (proj1 (welcome_until_first_request s [] w Rs))|].
  pose proof (reachable_paired s Rs) as H.
  destruct (run_while_mounted
              (fun s => loading_consistent s /\ paired (messages (ui s)) (sent s))
              (fun s s' => exists new, sent s' = sent s ++ new)
              paired_step) with (evs := evs) (a := a) (s := s) (w := w)
    as (a' & w' & s' & Run & Pa' & H' & new & E); try assumption.
  - intros s0. exists []. now rewrite app_nil_r.
  - intros s1 s2 s3 [n1 H1] [n2 H2]. exists (n1 ++ n2).
    now rewrite H2, H1, app_assoc.
  - intros ev s0 w0 s1 w1 _. apply step_sent_grows.
  - exists a', w', s'. split; [exact Run|]. split; [exact Pa'|].
    pose proof (paired_length _ _ (proj2 H)) as L.
    pose proof (paired_length _ _ (proj2 H')) as L'.
    unfold renderSearchPage. simpl. rewrite L, L', E, length_app.
    destruct (sent s) as [|rq reqs]; [now left|].
    right. apply Nat.ltb_lt. simpl. lia.
Qed.

Lemma welcome_kept_while_mounted_witness :
  ((main (renderSearchPage (ui answered)) = Welcome (form_of (ui answered)) /\
    fixedBar_isVisible (renderSearchPage (ui answered)) = false /\
    sent answered = [])
   \/
   (exists bubbles,
       main (renderSearchPage (ui answered)) = Conversation bubbles /\
       List.length bubbles = 2 * List.length (sent answered) /\
       fixedBar_isVisible (renderSearchPage (ui answered)) = true /\
       sent answered <> [])) /\
  exists a' w' s',
    App.run [App.OnPage (Change ""); App.OnPage Submit;
             App.Click Nav.MenuButton; App.Click (Nav.MobileItem 1)]
            conversing sample_world = (Returned a', w') /\
    App.page a' = Some s' /\
    (fixedBar_isVisible (renderSearchPage (ui answered)) = false \/
     fixedBar_isVisible (renderSearchPage (ui s')) = true).
Proof.
  apply (welcome_kept_while_mounted conversing answered
           [App.OnPage (Change ""); App.OnPage Submit;
            App.Click Nav.MenuButton; App.Click (Nav.MobileItem 1)]
           sample_world).
  - exists [App.Click (Nav.DesktopItem 1);
            App.OnPage (Change sample_question);
            App.OnPage Submit;
            App.OnPage (Settle sample_response)], sample_world.
    eexists. reflexivity.
  - reflexivity.
  - reflexivity.
Defined.

(** X15: leaving the search page discards the conversation: after a click
    that selects another page and a click that selects the search page
    again, the page is mounted afresh, with no messages, nothing sent, the
    welcome screen and a hidden fixed bar. *)
Theorem leaving_discards_conversation
        (a : App.t) (c1 c2 : Nav.Click) (w : World) :
  App.on_search (Nav.click c1 (App.nav a)) = false ->
  App.on_search (Nav.click c2 (Nav.click c1 (App.nav a))) = true ->
  exists a' s',
    App.run [App.Click c1; App.Click c2] a w = (Returned a', w) /\
    App.page a' = Some s' /\
    messages (ui s') = [] /\ sent s' = [] /\ inflight s' = [] /\
    main (renderSearchPage (ui s')) = Welcome (form_of initial) /\
    fixedBar_isVisible (renderSearchPage (ui s')) = false.
Proof.
  intros Off On. eexists. exists start. split; [reflexivity|].
  simpl. unfold App.mount. rewrite Off, On. repeat split.
Qed.

Lemma leaving_discards_conversation_witness :
  App.page conversing = Some answered /\
  List.length (messages (ui answered)) = 2 /\
  exists a' s',
    App.run [App.Click (Nav.DesktopItem 2); App.Click (Nav.DesktopItem 1)]
            conversing sample_world = (Returned a', sample_world) /\
    App.page a' = Some s' /\
    messages (ui s') = [] /\ sent s' = [] /\ inflight s' = [] /\
    main (renderSearchPage (ui s')) = Welcome (form_of initial) /\
    fixedBar_isVisible (renderSearchPage (ui s')) = false.
Proof.
  split; [reflexivity|]. split; [reflexivity|].
  apply (leaving_discards_conversation conversing
           (Nav.DesktopItem 2) (Nav.DesktopItem 1) sample_world);
    reflexivity.
Defined.
